(** * fujisuite-server: the route aggregation and normalization engine

    A shallow embedding of the [nav] package (routing.go, the HTTP handlers,
    the model and type declarations) and the properties of it that the
    specification states.

    Conventions of the embedding:
    - Go's [int] is a 64-bit two's complement integer: a [Z] kept in range by
      [wrap64] wherever the source can overflow;
    - Go's [float64] is the kernel's binary64 [float];
    - Go's [string] is a byte string: Stdlib's [string], one [ascii] per byte;
    - a Go [error] is its message; a run-time panic is an outcome of its own;
    - the network is an oracle queried with the history of the calls made so
      far, and every call is appended to that history. *)

From Stdlib Require Import ZArith List String Ascii Bool Lia Floats DecimalString.
From Equations.Prop Require Import Equations.
Import ListNotations.

Set Warnings "-inexact-float,-register-all".

(** A value together with the equation that it is the scrutinee: matching on
    [inspect x] keeps that equation for the branch. *)
Definition inspect {A : Type} (x : A) : { y : A | x = y } := exist _ x eq_refl.

Local Open Scope string_scope.
Local Open Scope Z_scope.

(** * The fragment of Go's runtime and standard library the sources use *)

Module Go.

(** ** Integers *)

Definition minInt64 : Z := - 2 ^ 63.

(** The value a 64-bit signed register holds after an operation whose exact
    result is [z]. *)
Definition wrap64 (z : Z) : Z := (z + 2 ^ 63) mod 2 ^ 64 - 2 ^ 63.

(** [x << s] on [int]: a shift count of 64 or more leaves zero. *)
Definition shl64 (x s : Z) : Z :=
  if 64 <=? s then 0 else wrap64 (Z.shiftl x s).

(** ** Floating point *)

(** [float64(z)] for an [int] z: the nearest binary64, ties to even. *)
Definition float64 (z : Z) : float :=
  SF2Prim (SpecFloat.binary_normalize 53 1024 z 0 false).

(** [int(f)]: truncation toward zero.  The language leaves the result open
    when the value does not fit; the amd64 compiler yields the minimal
    integer then, as it does for NaN. *)
Definition int (f : float) : Z :=
  match Prim2SF f with
  | S754_zero _ => 0
  | S754_finite s m e =>
      let a := if 0 <=? e then Z.pos m * 2 ^ e else Z.pos m / 2 ^ (- e) in
      let v := if s then - a else a in
      if (minInt64 <=? v) && (v <? 2 ^ 63) then v else minInt64
  | _ => minInt64
  end.

(** [math.Round]: the nearest integer, halves away from zero; zeros,
    infinities and NaN are returned as they are. *)
Definition Round (f : float) : float :=
  match Prim2SF f with
  | S754_finite s m e =>
      if 0 <=? e then f
      else
        let q := (Z.pos m + 2 ^ (- e - 1)) / 2 ^ (- e) in
        if q =? 0 then SF2Prim (S754_zero s)
        else if s then PrimFloat.opp (float64 q) else float64 q
  | _ => f
  end.

(** [math.Min] and [math.Max] with their special cases. *)
Definition Min (x y : float) : float :=
  if PrimFloat.eqb x neg_infinity || PrimFloat.eqb y neg_infinity then neg_infinity
  else if is_nan x || is_nan y then nan
  else if PrimFloat.eqb x 0 && PrimFloat.eqb x y then (if get_sign x then x else y)
  else if PrimFloat.ltb x y then x else y.

Definition Max (x y : float) : float :=
  if PrimFloat.eqb x infinity || PrimFloat.eqb y infinity then infinity
  else if is_nan x || is_nan y then nan
  else if PrimFloat.eqb x 0 && PrimFloat.eqb x y then (if get_sign x then y else x)
  else if PrimFloat.ltb y x then x else y.

(** ** Strings *)

Definition LF : string := String (ascii_of_nat 10) EmptyString.
Definition CR : ascii := ascii_of_nat 13.

(** The byte [s[i]] as an integer. *)
Definition byteVal (c : ascii) : Z := Z.of_N (N_of_ascii c).

(** [strings.ToLower] and [strings.ToUpper], on the ASCII letters; bytes of
    multi-byte runes are left as they are. *)
Definition lowerByte (c : ascii) : ascii :=
  let n := byteVal c in
  if (65 <=? n) && (n <=? 90) then ascii_of_N (Z.to_N (n + 32)) else c.

Definition upperByte (c : ascii) : ascii :=
  let n := byteVal c in
  if (97 <=? n) && (n <=? 122) then ascii_of_N (Z.to_N (n - 32)) else c.

Fixpoint mapBytes (f : ascii -> ascii) (s : string) : string :=
  match s with
  | EmptyString => EmptyString
  | String c r => String (f c) (mapBytes f r)
  end.

Definition ToLower : string -> string := mapBytes lowerByte.
Definition ToUpper : string -> string := mapBytes upperByte.

(** White space as [strings.TrimSpace] sees it in ASCII text. *)
Definition isSpace (c : ascii) : bool :=
  let n := byteVal c in
  ((9 <=? n) && (n <=? 13)) || (n =? 32).

Fixpoint trimLeftBy (p : ascii -> bool) (s : string) : string :=
  match s with
  | EmptyString => EmptyString
  | String c r => if p c then trimLeftBy p r else s
  end.

Fixpoint trimRightBy (p : ascii -> bool) (s : string) : string :=
  match s with
  | EmptyString => EmptyString
  | String c r =>
      match trimRightBy p r with
      | EmptyString => if p c then EmptyString else String c EmptyString
      | r' => String c r'
      end
  end.

Definition TrimSpace (s : string) : string :=
  trimLeftBy isSpace (trimRightBy isSpace s).

(** [strings.TrimRight(s, cutset)] for a cutset of one byte. *)
Definition TrimRight (s : string) (cut : ascii) : string :=
  trimRightBy (Ascii.eqb cut) s.

(** [strings.Split(s, sep)] for a separator of one byte: always at least
    one field. *)
Fixpoint Split (s : string) (sep : ascii) : list string :=
  match s with
  | EmptyString => [EmptyString]
  | String c r =>
      if Ascii.eqb c sep then EmptyString :: Split r sep
      else match Split r sep with
           | f :: fs => String c f :: fs
           | [] => [String c EmptyString]
           end
  end.

Fixpoint Contains (s sub : string) : bool :=
  prefix sub s ||
  match s with
  | EmptyString => false
  | String _ r => Contains r sub
  end.

Definition TrimSuffix (s suffix : string) : string :=
  let n := String.length s in
  let k := String.length suffix in
  if (k <=? n)%nat && String.eqb (substring (n - k) k s) suffix
  then substring 0 (n - k) s else s.

(** [strings.ReplaceAll(s, old, new)] for a non-empty [old]: matches are
    taken left to right and do not overlap; [skip] counts the bytes of a
    match still to be dropped. *)
Fixpoint replaceFrom (old new : string) (skip : nat) (s : string) : string :=
  match s with
  | EmptyString => EmptyString
  | String c r =>
      match skip with
      | S k => replaceFrom old new k r
      | O =>
          if prefix old s
          then new ++ replaceFrom old new (String.length old - 1) r
          else String c (replaceFrom old new 0 r)
      end
  end.

Definition ReplaceAll (s old new : string) : string := replaceFrom old new 0 s.

(** [strings.Fields(s)]: the maximal runs of bytes that are not white
    space, in ASCII text. *)
Fixpoint Fields (s : string) : list string :=
  match s with
  | EmptyString => []
  | String c r =>
      if isSpace c then Fields r
      else
        match r with
        | EmptyString => [String c EmptyString]
        | String c' _ =>
            if isSpace c' then String c EmptyString :: Fields r
            else match Fields r with
                 | w :: ws => String c w :: ws
                 | [] => [String c EmptyString]
                 end
        end
  end.

(** [strings.Join(elems, sep)] *)
Fixpoint Join (elems : list string) (sep : string) : string :=
  match elems with
  | [] => EmptyString
  | [e] => e
  | e :: rest => e ++ sep ++ Join rest sep
  end.

(** ** Formatting: the verbs of [fmt.Sprintf] the sources use *)

(** [%d] *)
Definition fmt_d (z : Z) : string := NilZero.string_of_int (Z.to_int z).

(** The quotient [a / b] ([b] positive) rounded to the nearest integer,
    ties to even. *)
Definition roundHalfEven (a b : Z) : Z :=
  let q := a / b in
  let r := a mod b in
  if 2 * r <? b then q
  else if b <? 2 * r then q + 1
  else if Z.even q then q else q + 1.

Fixpoint zeros (n : nat) : string :=
  match n with O => EmptyString | S k => String "0" (zeros k) end.

(** The decimal numeral of [n / 10^prec] with [prec] digits after the point
    (and no point when [prec] is zero), for [n] not negative. *)
Definition fixedDigits (prec : nat) (n : Z) : string :=
  let p := 10 ^ Z.of_nat prec in
  let frac := fmt_d (n mod p) in
  fmt_d (n / p) ++
  match prec with
  | O => EmptyString
  | _ => "." ++ zeros (prec - String.length frac) ++ frac
  end.

(** [%.<prec>f]: the exact value rounded to [prec] decimals, ties to even. *)
Definition fmt_f (prec : nat) (f : float) : string :=
  let sign (s : bool) := if s then "-" else EmptyString in
  match Prim2SF f with
  | S754_nan => "NaN"
  | S754_infinity s => if s then "-Inf" else "+Inf"
  | S754_zero s => sign s ++ fixedDigits prec 0
  | S754_finite s m e =>
      let scaled := Z.pos m * 10 ^ Z.of_nat prec in
      sign s ++ fixedDigits prec
        (if 0 <=? e then scaled * 2 ^ e else roundHalfEven scaled (2 ^ (- e)))
  end.

(** What [encoding/json] reports for a float it cannot encode. *)
Definition unsupportedFloat (f : float) : option string :=
  if is_nan f then Some "json: unsupported value: NaN"
  else if is_infinity f
       then Some (if get_sign f then "json: unsupported value: -Inf"
                  else "json: unsupported value: +Inf")
       else None.

End Go.

(** * The [nav] package *)

Module Nav.
Import Go.

(** ** Types and constants *)

Definition TransportMode := string.
Definition ModeWalking : TransportMode := "walking".
Definition ModeBiking : TransportMode := "biking".
Definition ModeAuto : TransportMode := "auto".
Definition ModeTransit : TransportMode := "transit".
Definition DefaultMode : TransportMode := ModeAuto.

Definition DistanceUnit := string.
Definition UnitKilometers : DistanceUnit := "km".
Definition UnitMiles : DistanceUnit := "mi".
Definition DefaultUnit : DistanceUnit := UnitKilometers.

Definition CountryCode := string.

Definition NormalizedGridSize : Z := 100.

Definition TransportMode_IsValid (m : TransportMode) : bool :=
  (m =? ModeWalking)%string || (m =? ModeBiking)%string
  || (m =? ModeAuto)%string || (m =? ModeTransit)%string.

Definition DistanceUnit_IsValid (u : DistanceUnit) : bool :=
  (u =? UnitKilometers)%string || (u =? UnitMiles)%string.

Definition CountryCode_IsValid (c : CountryCode) : bool :=
  (String.length c =? 2)%nat.

(** ** Models *)

Module NavConfig.
Record t := mk {
  NominatimURL : string;
  ValhallaURL : string;
  TransitlandURL : string;
  TransitlandAPIKey : string }.
End NavConfig.

Module RouteRequest.
Record t := mk {
  FromLat : float;
  FromLng : float;
  ToLat : float;
  ToLng : float;
  FromDesc : string;
  ToDesc : string;
  Mode : TransportMode;
  Units : DistanceUnit;
  Country : CountryCode }.
End RouteRequest.

Module RouteStep.
Record t := mk {
  Number : Z;
  Description : string;
  Distance : float;
  Icon : string }.
End RouteStep.

(** [[x, y]], normalized to 0-NormalizedGridSize. *)
Definition PathPoint : Type := Z * Z.

Module Path.
Record t := mk {
  Points : list PathPoint;
  Length : Z;
  Width : Z;
  Height : Z }.
(** The zero value of the struct. *)
Definition zero : t := mk [] 0 0 0.
End Path.

Module Location.
Record t := mk {
  Desc : string;
  Lat : float;
  Lng : float }.
End Location.

Module RouteResponse.
Record t := mk {
  Duration : float;
  Distance : float;
  Units : DistanceUnit;
  Steps : list RouteStep.t;
  Path : Path.t;
  Mode : TransportMode;
  From : Location.t;
  To : Location.t }.
End RouteResponse.

Module ErrorResponse.
Record t := mk { Error : string }.
End ErrorResponse.

(** ** routing.go: units *)

Definition metersPerMile : float := 1609.344%float.

Definition getTransportMode (mode : TransportMode) : string :=
  if (mode =? ModeWalking)%string then "pedestrian"
  else if (mode =? ModeBiking)%string then "bicycle"
  else if (mode =? ModeTransit)%string then "transit"
  else "auto".

Definition getValhallaUnits (units : DistanceUnit) : string :=
  if (units =? UnitMiles)%string then "miles" else "kilometers".

Definition convertDistance (meters : float) (units : DistanceUnit) : float :=
  if (units =? UnitMiles)%string then (meters / metersPerMile)%float
  else (meters / 1000)%float.

(** ** routing.go: the polyline decoder and normalizer *)

Definition min (a b : Z) : Z := if a <? b then a else b.
Definition max (a b : Z) : Z := if a >? b then a else b.
Definition abs (x : Z) : Z := if x <? 0 then wrap64 (- x) else x.

(** The loop [for byte >= 0x20 { byte = int(encoded[index]) - 63; ... }]
    over the bytes from [index] on: the accumulated [result] and the bytes
    left, or [None] when [encoded[index]] is read past the end (a panic). *)
Fixpoint readVarint (bytes : string) (shift result : Z) : option (Z * string) :=
  match bytes with
  | EmptyString => None
  | String c rest =>
      let byte := byteVal c - 63 in
      let result := Z.lor result (shl64 (Z.land byte 31) shift) in
      let shift := shift + 5 in
      if 32 <=? byte then readVarint rest shift result
      else Some (result, rest)
  end.

(** "check if we need to go negative or not" *)
Definition addDelta (acc result : Z) : Z :=
  if Z.land result 1 >? 0
  then wrap64 (acc + Z.lnot (Z.shiftr result 1))
  else wrap64 (acc + Z.shiftr result 1).

(** [math.Pow10(precision)] for the precision of 5. *)
Definition factor : float := 100000%float.

Lemma readVarint_shorter bytes shift result r rest :
  readVarint bytes shift result = Some (r, rest) ->
  (String.length rest < String.length bytes)%nat.
Proof.
  revert shift result.
  induction bytes as [|c bytes IH]; intros shift result H; simpl in H.
  - discriminate.
  - destruct (32 <=? byteVal c - 63).
    + apply IH in H. simpl. lia.
    + inversion H; subst. simpl. lia.
Qed.

(** "First pass: decode all points": the loop [for index < len(encoded)],
    on the bytes from [index] on. *)
Equations? decodeLoop (bytes : string) (lat lng : Z) (rawPoints : list (float * float))
  : option (list (float * float)) by wf (String.length bytes) lt :=
decodeLoop EmptyString lat lng rawPoints := Some rawPoints;
decodeLoop (String c tl) lat lng rawPoints with inspect (readVarint (String c tl) 0 0) := {
  | exist _ None _ := None;
  | exist _ (Some (result, rest)) Hlat with inspect (readVarint rest 0 0) := {
    | exist _ None _ := None;
    | exist _ (Some (result', rest')) Hlng :=
        let lat := addDelta lat result in
        let lng := addDelta lng result' in
        let actualLat := (float64 lat / factor)%float in
        let actualLng := (float64 lng / factor)%float in
        decodeLoop rest' lat lng (rawPoints ++ [(actualLat, actualLng)]) } }.
Proof.
  apply (readVarint_shorter (String c tl) 0 0) in Hlat.
  apply readVarint_shorter in Hlng.
  simpl in Hlat |- *.
  lia.
Qed.

(** "Find bounds": (minLat, maxLat, minLng, maxLng). *)
Definition bounds (p0 : float * float) (rest : list (float * float))
  : float * float * float * float :=
  fold_left
    (fun '(minLat, maxLat, minLng, maxLng) p =>
       (Min minLat (fst p), Max maxLat (fst p),
        Min minLng (snd p), Max maxLng (snd p)))
    rest (fst p0, fst p0, snd p0, snd p0).

(** "Handle cases where all points are the same" *)
Definition spanOf (lo hi : float) : float :=
  let range := (hi - lo)%float in
  if PrimFloat.eqb range 0 then 1%float else range.

(** One axis of "Normalize to 100x100 grid" and "Ensure points are within
    bounds". *)
Definition toGrid (v lo range : float) : Z :=
  let x := int (Round ((v - lo) / range * float64 NormalizedGridSize)%float) in
  max 0 (min NormalizedGridSize x).

(** "Calculate Manhattan distance": both points lie on the grid, so nothing
    overflows. *)
Definition manhattan (p q : PathPoint) : Z :=
  abs (fst p - fst q) + abs (snd p - snd q).

(** "Check if this point is too close to any existing point" *)
Definition isDuplicate (normalizedPoints : list PathPoint) (p : PathPoint) : bool :=
  existsb (fun existing => manhattan p existing <=? 2) normalizedPoints.

Definition retain (normalizedPoints : list PathPoint) (p : PathPoint) : list PathPoint :=
  if isDuplicate normalizedPoints p then normalizedPoints
  else normalizedPoints ++ [p].

(** "Second pass: normalize points and remove duplicates and
    near-duplicates". *)
Definition normalize (rawPoints : list (float * float)) : list PathPoint :=
  match rawPoints with
  | [] => []
  | p0 :: rest =>
      let '(minLat, maxLat, minLng, maxLng) := bounds p0 rest in
      let latRange := spanOf minLat maxLat in
      let lngRange := spanOf minLng maxLng in
      fold_left
        (fun normalizedPoints p =>
           let x := toGrid (snd p) minLng lngRange in
           let y := toGrid (fst p) minLat latRange in
           retain normalizedPoints (x, y))
        rawPoints []
  end.

(** [decodePolyline]: [None] stands for the index-out-of-range panic on a
    curve that ends inside a number or between a latitude and its
    longitude. *)
Definition decodePolyline (encoded : string) : option (list PathPoint) :=
  if (encoded =? "")%string then Some []
  else option_map normalize (decodeLoop encoded 0 0 []).

(** ** Results, the network and the clock *)

(** What a Go function with results [(A, error)] returns. *)
Inductive result (A : Type) : Type :=
| Ok (a : A)
| Err (msg : string).
Arguments Ok {A} a.
Arguments Err {A} msg.

(** A [map[string]interface{}] literal and the values put in one. *)
Inductive Value : Type :=
| VBool (b : bool)
| VInt (z : Z)
| VFloat (f : float)
| VString (s : string)
| VMap (entries : list (string * Value)).

Module valhallaLocation.
Record t := mk {
  Lat : float;
  Lon : float;
  Type_ : string }.
End valhallaLocation.

Module valhallaRequest.
Record t := mk {
  Locations : list valhallaLocation.t;
  Costing : string;
  Units : string;
  CostingOptions : list (string * Value);
  DateTime : list (string * Value) }.
End valhallaRequest.

Module valhallaManeuver.
Record t := mk {
  Type_ : Z;
  Instruction : string;
  Distance : float }.
End valhallaManeuver.

Module valhallaLeg.
Record t := mk {
  Maneuvers : list valhallaManeuver.t;
  Shape : string }.
End valhallaLeg.

(** [valhallaResponse]: [Trip.Legs], [Trip.Summary.Time] and
    [Trip.Summary.Distance]. *)
Module valhallaResponse.
Record t := mk {
  Legs : list valhallaLeg.t;
  SummaryTime : float;
  SummaryDistance : float }.
End valhallaResponse.

(** The anonymous struct a Valhalla error body is unmarshalled into. *)
Module valhallaError.
Record t := mk {
  ErrorCode : Z;
  Error : string;
  StatusCode : Z;
  Status : string }.
End valhallaError.

Module transitStop.
Record t := mk {
  Name : string;
  StopId : string;
  StopCode : string }.
End transitStop.

(** A leg of an itinerary of [transitlandResponse]: [From.Name], [To.Name]
    and [LegGeometry.Points] are the nested fields the code reads. *)
Module transitLeg.
Record t := mk {
  Mode : string;
  Distance : float;
  Duration : float;
  FromName : string;
  ToName : string;
  RouteId : string;
  RouteShortName : string;
  RouteLongName : string;
  AgencyName : string;
  Points : string;
  IntermediateStops : list transitStop.t }.
End transitLeg.

Module Itinerary.
Record t := mk {
  Duration : float;
  WalkTime : float;
  TransitTime : float;
  WalkDistance : float;
  Legs : list transitLeg.t }.
End Itinerary.

(** [transitlandResponse]: [Plan.Itineraries]. *)
Module transitlandResponse.
Record t := mk { Itineraries : list Itinerary.t }.
End transitlandResponse.

(** A reply of the direct-routing backend: its status, what [io.ReadAll]
    makes of its body, and what [encoding/json] makes of the body when it is
    unmarshalled into the error struct ([None]: it fails) or decoded into
    [valhallaResponse]. *)
Module valhallaReply.
Record t := mk {
  StatusCode : Z;
  Body : result string;
  Error : option valhallaError.t;
  Decoded : result valhallaResponse.t }.
End valhallaReply.

(** A reply of the itinerary backend, in the same way. *)
Module transitlandReply.
Record t := mk {
  StatusCode : Z;
  Body : result string;
  Decoded : result transitlandResponse.t }.
End transitlandReply.

(** The calls made to the backends, oldest first. *)
Inductive Call : Type :=
| Post (url : string) (body : valhallaRequest.t)
| Get (url : string) (query : list (string * string)).

Definition History : Type := list Call.

(** [time.Now()], as the two layouts it is formatted with: "2006-01-02" and
    "15:04". *)
Module Time.
Record t := mk {
  date : string;
  clock : string }.
End Time.

(** What a request runs against: the configuration set at startup, the
    clock, the two backends ([httpPost] and [httpGet] answer a call given
    the calls made before it) and [strconv.ParseFloat]. *)
Module Env.
Record t := mk {
  navConfig : NavConfig.t;
  now : History -> Time.t;
  httpPost : History -> string -> valhallaRequest.t -> result valhallaReply.t;
  httpGet : History -> string -> list (string * string) -> result transitlandReply.t;
  ParseFloat : string -> result float }.
End Env.

Definition StatusOK : Z := 200.

(** ** routing.go: the itinerary adapter *)

Definition formatUSDistance (meters : float) : string :=
  let feet := (meters * 3.28084)%float in
  if PrimFloat.ltb feet 1000 then fmt_f 0 feet ++ " feet"
  else
    let miles := (feet / 5280)%float in
    if PrimFloat.ltb miles 0.1 then fmt_f 0 feet ++ " feet"
    else fmt_f 1 miles ++ " miles".

(** [getStepIcon] determines the icon from the maneuver type and mode. *)
Definition getStepIcon (maneuverType : Z) (instruction mode : string) : string :=
  let m := ToUpper mode in
  if (m =? "BUS")%string then "Bus"
  else if existsb (String.eqb m) ["RAIL"; "SUBWAY"; "TRAM"; "TRAIN"] then "Train"
  else if existsb (String.eqb m) ["FERRY"; "BOAT"] then "Ferry"
  else if (m =? "WALK")%string then "Walk"
  else if existsb (Z.eqb maneuverType) [2; 10; 11; 12; 1] then "Right"
  else if existsb (Z.eqb maneuverType) [3; 13; 14; 15; 19] then "Left"
  else if existsb (Z.eqb maneuverType) [9; 23] then "right"
  else if existsb (Z.eqb maneuverType) [16; 24] then "left"
  else if existsb (Z.eqb maneuverType) [7; 8; 17; 22] then "Straight"
  else if existsb (Z.eqb maneuverType) [25; 26; 37; 38] then "Merge"
  else if existsb (Z.eqb maneuverType) [20; 21; 27] then "Exit"
  else if existsb (Z.eqb maneuverType) [28; 29] then "Ferry"
  else if existsb (Z.eqb maneuverType) [42; 43] then "building"
  else "".

(** "Create step description based on mode": the description and the icon
    of a leg. *)
Definition legDescription (req : RouteRequest.t) (leg : transitLeg.t) : string * string :=
  let us := (RouteRequest.Country req =? "us")%string in
  let mode := transitLeg.Mode leg in
  if (mode =? "WALK")%string then
    let d := if us then "Walk " ++ formatUSDistance (transitLeg.Distance leg)
             else "Walk " ++ fmt_f 0 (transitLeg.Distance leg) ++ " meters" in
    let d := if (transitLeg.ToName leg =? "")%string then d
             else d ++ " to " ++ transitLeg.ToName leg in
    (d, "Walk")
  else if existsb (String.eqb mode) ["BUS"; "RAIL"; "SUBWAY"; "TRAM"; "FERRY"] then
    let d := "Take" in
    let d := if (transitLeg.RouteShortName leg =? "")%string then d
             else d ++ " the " ++ transitLeg.RouteShortName leg in
    let d := if (transitLeg.RouteLongName leg =? "")%string then d
             else d ++ " " ++ transitLeg.RouteLongName leg in
    let d := if (transitLeg.AgencyName leg =? "")%string then d
             else d ++ " operated by " ++ transitLeg.AgencyName leg in
    let d := if (transitLeg.FromName leg =? "")%string || (transitLeg.ToName leg =? "")%string
             then d
             else d ++ " from " ++ transitLeg.FromName leg ++ " to " ++ transitLeg.ToName leg in
    let stops := Z.of_nat (List.length (transitLeg.IntermediateStops leg)) in
    let d := if stops >? 0 then d ++ " (" ++ fmt_d stops ++ " stops)" else d in
    (d, getStepIcon 0 "" mode)
  else
    let d := if us then mode ++ " for " ++ formatUSDistance (transitLeg.Distance leg)
             else mode ++ " for " ++ fmt_f 0 (transitLeg.Distance leg) ++ " meters" in
    (d, "Straight").

Definition legStep (req : RouteRequest.t) (i : Z) (leg : transitLeg.t) : RouteStep.t :=
  let '(description, icon) := legDescription req leg in
  RouteStep.mk (i + 1) description
    (convertDistance (transitLeg.Distance leg) (RouteRequest.Units req)) icon.

(** "Decode and add points from this leg's geometry" *)
Definition legPoints (leg : transitLeg.t) : option (list PathPoint) :=
  if (transitLeg.Points leg =? "")%string then Some []
  else decodePolyline (transitLeg.Points leg).

(** "Process legs and build path": the loop over [itinerary.Legs] from
    index [i] on, with the steps and the points it appends; [None] when a
    leg's geometry makes the decoder panic. *)
Fixpoint processLegs (req : RouteRequest.t) (i : Z) (legs : list transitLeg.t)
  : option (list RouteStep.t * list PathPoint) :=
  match legs with
  | [] => Some ([], [])
  | leg :: rest =>
      match legPoints leg, processLegs req (i + 1) rest with
      | Some points, Some (steps, allPoints) =>
          Some (legStep req i leg :: steps, (points ++ allPoints)%list)
      | _, _ => None
      end
  end.

Definition pathOf (points : list PathPoint) : Path.t :=
  Path.mk points (Z.of_nat (List.length points)) NormalizedGridSize NormalizedGridSize.

Definition fromLocation (req : RouteRequest.t) : Location.t :=
  Location.mk (RouteRequest.FromDesc req) (RouteRequest.FromLat req) (RouteRequest.FromLng req).

Definition toLocation (req : RouteRequest.t) : Location.t :=
  Location.mk (RouteRequest.ToDesc req) (RouteRequest.ToLat req) (RouteRequest.ToLng req).

(** "Use the first itinerary": the response built from it. *)
Definition itineraryResponse (req : RouteRequest.t) (itinerary : Itinerary.t)
  : option RouteResponse.t :=
  match processLegs req 0 (Itinerary.Legs itinerary) with
  | None => None
  | Some (steps, allPoints) =>
      Some (RouteResponse.mk
              (Itinerary.Duration itinerary)
              (convertDistance (Itinerary.WalkDistance itinerary) (RouteRequest.Units req))
              (RouteRequest.Units req)
              steps
              (pathOf allPoints)
              (RouteRequest.Mode req)
              (fromLocation req) (toLocation req))
  end.

(** The query of the plan request, in the order [url.Values.Encode] writes
    the keys. *)
Definition planQuery (env : Env.t) (h : History) (req : RouteRequest.t)
  : list (string * string) :=
  let now := Env.now env h in
  [ ("api_key", NavConfig.TransitlandAPIKey (Env.navConfig env));
    ("date", Time.date now);
    ("fromPlace", fmt_f 6 (RouteRequest.FromLat req) ++ "," ++ fmt_f 6 (RouteRequest.FromLng req));
    ("time", Time.clock now);
    ("toPlace", fmt_f 6 (RouteRequest.ToLat req) ++ "," ++ fmt_f 6 (RouteRequest.ToLng req)) ].

(** [routeTransitUS]: the outcome ([None]: a panic) and the calls made. *)
Definition routeTransitUS (env : Env.t) (h : History) (req : RouteRequest.t)
  : option (result RouteResponse.t) * History :=
  let cfg := Env.navConfig env in
  if (NavConfig.TransitlandURL cfg =? "")%string || (NavConfig.TransitlandAPIKey cfg =? "")%string
  then (Some (Err "transitland configuration not complete"), h)
  else
    let apiURL := NavConfig.TransitlandURL cfg ++ "/routing/otp/plan" in
    let query := planQuery env h req in
    let h' := (h ++ [Get apiURL query])%list in
    match Env.httpGet env h apiURL query with
    | Err err => (Some (Err ("error making request to transitland: " ++ err)), h')
    | Ok resp =>
        match transitlandReply.Body resp with
        | Err err => (Some (Err ("error reading response body: " ++ err)), h')
        | Ok body =>
            if negb (transitlandReply.StatusCode resp =? StatusOK)
            then (Some (Err ("transitland API returned status "
                             ++ fmt_d (transitlandReply.StatusCode resp) ++ ": " ++ body)), h')
            else
              match transitlandReply.Decoded resp with
              | Err err => (Some (Err ("error decoding response: " ++ err)), h')
              | Ok tResp =>
                  match transitlandResponse.Itineraries tResp with
                  | [] => (Some (Err "no route found"), h')
                  | itinerary :: _ => (option_map Ok (itineraryResponse req itinerary), h')
                  end
              end
        end
    end.

(** ** routing.go: the direct-routing adapter and the fallback *)

(** "Abbreviate common words": the replacements, in the order they are
    applied. *)
Definition abbreviations : list (string * string) :=
  [ (" onto ", " on "); (" Avenue", " Ave"); (" Street", " St"); (" Road", " Rd");
    (" Boulevard", " Blvd"); (" Drive", " Dr"); (" Court", " Ct"); (" Circle", " Cir");
    (" Highway", " Hwy"); (" Parkway", " Pkwy"); (" Place", " Pl"); (" Square", " Sq");
    (" Terrace", " Ter"); (" Trail", " Trl"); (" Turnpike", " Tpke"); (" Lane", " Ln");
    (" North ", " N "); (" South ", " S "); (" East ", " E "); (" West ", " W ");
    (" Northeast ", " NE "); (" Northwest ", " NW "); (" Southeast ", " SE ");
    (" Southwest ", " SW ") ].

Definition abbreviateInstruction (instruction : string) : string :=
  if Contains instruction "You have arrived at your destination"
  then "Arrive at destination"
  else
    fold_left (fun instruction '(old, new) => ReplaceAll instruction old new)
      abbreviations (TrimSuffix instruction ".").

(** "For the first step, override the icon based on the transport mode" *)
Definition firstStepIcon (mode : TransportMode) (icon : string) : string :=
  if (mode =? ModeBiking)%string then "Cycle"
  else if (mode =? ModeWalking)%string then "Walk"
  else if (mode =? ModeAuto)%string then "Drive"
  else icon.

Definition maneuverStep (req : RouteRequest.t) (i : Z) (maneuver : valhallaManeuver.t)
  : RouteStep.t :=
  let icon := getStepIcon (valhallaManeuver.Type_ maneuver)
                (valhallaManeuver.Instruction maneuver) "" in
  RouteStep.mk (i + 1)
    (abbreviateInstruction (valhallaManeuver.Instruction maneuver))
    (convertDistance (valhallaManeuver.Distance maneuver * 1000)%float (RouteRequest.Units req))
    (if i =? 0 then firstStepIcon (RouteRequest.Mode req) icon else icon).

(** "Process steps": the loop over [vResp.Trip.Legs[0].Maneuvers] from
    index [i] on. *)
Fixpoint maneuverSteps (req : RouteRequest.t) (i : Z) (maneuvers : list valhallaManeuver.t)
  : list RouteStep.t :=
  match maneuvers with
  | [] => []
  | maneuver :: rest => maneuverStep req i maneuver :: maneuverSteps req (i + 1) rest
  end.

(** "Convert response to our format"; [None] when the shape makes the
    decoder panic. *)
Definition valhallaRouteResponse (req : RouteRequest.t) (vResp : valhallaResponse.t)
  : option RouteResponse.t :=
  let result steps path :=
    RouteResponse.mk
      (valhallaResponse.SummaryTime vResp)
      (convertDistance (valhallaResponse.SummaryDistance vResp * 1000)%float
         (RouteRequest.Units req))
      (RouteRequest.Units req)
      steps path
      (RouteRequest.Mode req)
      (fromLocation req) (toLocation req) in
  match valhallaResponse.Legs vResp with
  | [] => Some (result [] Path.zero)
  | leg :: _ =>
      match decodePolyline (valhallaLeg.Shape leg) with
      | None => None
      | Some points =>
          Some (result (maneuverSteps req 0 (valhallaLeg.Maneuvers leg)) (pathOf points))
      end
  end.

Definition withUnits (req : RouteRequest.t) (units : DistanceUnit) : RouteRequest.t :=
  RouteRequest.mk (RouteRequest.FromLat req) (RouteRequest.FromLng req)
    (RouteRequest.ToLat req) (RouteRequest.ToLng req)
    (RouteRequest.FromDesc req) (RouteRequest.ToDesc req)
    (RouteRequest.Mode req) units (RouteRequest.Country req).

Definition withMode (req : RouteRequest.t) (mode : TransportMode) : RouteRequest.t :=
  RouteRequest.mk (RouteRequest.FromLat req) (RouteRequest.FromLng req)
    (RouteRequest.ToLat req) (RouteRequest.ToLng req)
    (RouteRequest.FromDesc req) (RouteRequest.ToDesc req)
    mode (RouteRequest.Units req) (RouteRequest.Country req).

Definition displayNameOff : Value := VMap [("use_display_name", VBool false)].

(** "Create Valhalla request" and "Add transit-specific parameters if mode
    is transit". *)
Definition buildValhallaRequest (now : Time.t) (req : RouteRequest.t) : valhallaRequest.t :=
  let locations :=
    [ valhallaLocation.mk (RouteRequest.FromLat req) (RouteRequest.FromLng req) "break";
      valhallaLocation.mk (RouteRequest.ToLat req) (RouteRequest.ToLng req) "break" ] in
  if (RouteRequest.Mode req =? ModeTransit)%string then
    valhallaRequest.mk locations "transit" (getValhallaUnits (RouteRequest.Units req))
      [ ("transit",
         VMap [ ("use_bus", VFloat 1); ("use_rail", VFloat 1); ("use_transfers", VFloat 1);
                ("transit_start_end_max_distance", VInt 2000);
                ("transit_transfer_max_distance", VInt 500) ]) ]
      [ ("type", VInt 1); ("value", VString (Time.date now ++ "T" ++ Time.clock now)) ]
  else
    valhallaRequest.mk locations (getTransportMode (RouteRequest.Mode req))
      (getValhallaUnits (RouteRequest.Units req))
      [ ("auto", displayNameOff); ("pedestrian", displayNameOff); ("bicycle", displayNameOff) ]
      [].

(** The error of [json.Marshal(vReq)], if any: a coordinate that is not a
    finite number. *)
Fixpoint marshalError (locations : list valhallaLocation.t) : option string :=
  match locations with
  | [] => None
  | l :: rest =>
      match unsupportedFloat (valhallaLocation.Lat l) with
      | Some e => Some e
      | None =>
          match unsupportedFloat (valhallaLocation.Lon l) with
          | Some e => Some e
          | None => marshalError rest
          end
      end
  end.

(** "Use the itinerary adapter": the test the router starts with. *)
Definition usesItinerary (cfg : NavConfig.t) (req : RouteRequest.t) : bool :=
  (RouteRequest.Mode req =? ModeTransit)%string
  && (RouteRequest.Country req =? "us")%string
  && negb (NavConfig.TransitlandURL cfg =? "")%string.

(** "Validate units": the request with its units defaulted, or the error. *)
Definition validateUnits (req : RouteRequest.t) : result RouteRequest.t :=
  if (RouteRequest.Units req =? "")%string then Ok (withUnits req DefaultUnit)
  else if negb (DistanceUnit_IsValid (RouteRequest.Units req))
       then Err ("invalid units: must be one of: " ++ UnitKilometers ++ ", " ++ UnitMiles)
       else Ok req.

(** One activation of [route] up to the point where it returns: either with
    its outcome ([None]: a panic), or by calling itself on another request
    ([return route(req)]). *)
Inductive Activation : Type :=
| Return (out : option (result RouteResponse.t)) (h : History)
| Reroute (req : RouteRequest.t) (h : History).

(** "Check response status" and what follows it. *)
Definition onValhallaReply (req : RouteRequest.t) (resp : valhallaReply.t) (h : History)
  : Activation :=
  let status := valhallaReply.StatusCode resp in
  if negb (status =? StatusOK) then
    match valhallaReply.Body resp with
    | Err err =>
        Return (Some (Err ("valhalla API returned status " ++ fmt_d status
                           ++ ", failed to read error message: " ++ err))) h
    | Ok errorBody =>
        match valhallaReply.Error resp with
        | Some valhallaError =>
            if valhallaError.ErrorCode valhallaError =? 170 then
              if (RouteRequest.Mode req =? ModeTransit)%string
              then Reroute (withMode req ModeAuto) h
              else Return (Some (Err "no route found: locations are not connected in the transportation network")) h
            else Return (Some (Err ("routing error: " ++ valhallaError.Error valhallaError))) h
        | None =>
            Return (Some (Err ("valhalla API returned status " ++ fmt_d status
                               ++ ": " ++ errorBody))) h
        end
    end
  else
    match valhallaReply.Decoded resp with
    | Err err => Return (Some (Err ("error decoding response: " ++ err))) h
    | Ok vResp => Return (option_map Ok (valhallaRouteResponse req vResp)) h
    end.

Definition routeActivation (env : Env.t) (h : History) (req : RouteRequest.t) : Activation :=
  if usesItinerary (Env.navConfig env) req
  then let '(out, h') := routeTransitUS env h req in Return out h'
  else
    match validateUnits req with
    | Err err => Return (Some (Err err)) h
    | Ok req =>
        let vReq := buildValhallaRequest (Env.now env h) req in
        match marshalError (valhallaRequest.Locations vReq) with
        | Some err => Return (Some (Err ("error marshaling request: " ++ err))) h
        | None =>
            let url := NavConfig.ValhallaURL (Env.navConfig env) in
            let h' := (h ++ [Post url vReq])%list in
            match Env.httpPost env h url vReq with
            | Err err => Return (Some (Err ("error making request to Valhalla: " ++ err))) h'
            | Ok resp => onValhallaReply req resp h'
            end
        end
    end.

(** The fallbacks a request still has: one while its mode is transit. *)
Definition fallbacksLeft (req : RouteRequest.t) : nat :=
  if (RouteRequest.Mode req =? ModeTransit)%string then 1%nat else 0%nat.

Lemma onValhallaReply_Reroute req resp h req' h' :
  onValhallaReply req resp h = Reroute req' h' ->
  RouteRequest.Mode req = ModeTransit /\ req' = withMode req ModeAuto /\ h' = h.
Proof.
  unfold onValhallaReply.
  destruct (negb _); [ | destruct (valhallaReply.Decoded resp); discriminate ].
  destruct (valhallaReply.Body resp); [ | discriminate ].
  destruct (valhallaReply.Error resp); [ | discriminate ].
  destruct (_ =? 170); [ | discriminate ].
  destruct (RouteRequest.Mode req =? ModeTransit)%string eqn:E; [ | discriminate ].
  intros H; inversion H; subst.
  apply String.eqb_eq in E. auto.
Qed.

Lemma routeActivation_Reroute env h req req' h' :
  routeActivation env h req = Reroute req' h' ->
  RouteRequest.Mode req = ModeTransit /\ RouteRequest.Mode req' = ModeAuto.
Proof.
  unfold routeActivation.
  destruct (usesItinerary _ _).
  - destruct (routeTransitUS env h req); discriminate.
  - unfold validateUnits.
    destruct (RouteRequest.Units req =? "")%string;
      [ | destruct (negb _); [ discriminate | ] ];
      (destruct (marshalError _); [ discriminate | ]);
      (destruct (Env.httpPost _ _ _ _); [ | discriminate ]);
      intros H; apply onValhallaReply_Reroute in H; destruct H as (Hm & -> & _);
      split; auto.
Qed.

(** [route]: the outcome ([None]: a panic) and the calls made. *)
Equations? route (env : Env.t) (h : History) (req : RouteRequest.t)
  : option (result RouteResponse.t) * History by wf (fallbacksLeft req) lt :=
route env h req with inspect (routeActivation env h req) := {
  | exist _ (Return out h') _ := (out, h');
  | exist _ (Reroute req' h') Hcall := route env h' req' }.
Proof.
  apply routeActivation_Reroute in Hcall. destruct Hcall as [Hm Hm'].
  unfold fallbacksLeft. rewrite Hm, Hm'. simpl. lia.
Qed.

(** ** The handlers: formatting *)

Definition formatDuration (seconds : float) : string :=
  let hours := int (seconds / 3600)%float in
  let minutes := int ((seconds - float64 (wrap64 (hours * 3600))) / 60)%float in
  if hours >? 0 then
    if minutes >? 0 then fmt_d hours ++ "hr " ++ fmt_d minutes ++ "min"
    else fmt_d hours ++ "hr"
  else fmt_d minutes ++ "min".

Definition formatDistance (distance : float) (units : DistanceUnit) : string :=
  if (units =? UnitMiles)%string then
    if PrimFloat.ltb distance 0.1 then
      let feet := (distance * 5280)%float in
      fmt_f 0 feet ++ "ft"
    else fmt_f 1 distance ++ "mi"
  else
    if PrimFloat.ltb distance 1 then fmt_f 0 (distance * 1000)%float ++ "m"
    else fmt_f 1 distance ++ "km".

(** ** The handlers: requests and response writers *)

Definition MethodGet : string := "GET".
Definition MethodPost : string := "POST".

Definition StatusBadRequest : Z := 400.
Definition StatusMethodNotAllowed : Z := 405.
Definition StatusInternalServerError : Z := 500.

(** An inbound request: the verb, the query parameters of the URL and what
    [io.ReadAll(r.Body)] returns. *)
Module Request.
Record t := mk {
  Method : string;
  Query : list (string * string);
  Body : result string }.
End Request.

(** [r.URL.Query().Get(key)]: the first value of the key, or the empty
    string. *)
Fixpoint queryGet (query : list (string * string)) (key : string) : string :=
  match query with
  | [] => ""
  | (k, v) :: rest => if (k =? key)%string then v else queryGet rest key
  end.

(** What is written to a response: text, or the JSON encoding of a value
    (kept as the value). *)
Inductive Payload : Type :=
| Text (s : string)
| JSONError (e : ErrorResponse.t)
| JSONRoute (r : RouteResponse.t).

(** A response writer: the Content-Type header, the status (200 unless
    [WriteHeader] is called) and the payloads written, in order. *)
Module ResponseWriter.
Record t := mk {
  ContentType : string;
  Status : Z;
  Written : list Payload }.
Definition fresh : t := mk "" StatusOK [].
End ResponseWriter.











(** ** The handlers: parsing and dispatch *)

Definition bind {A B : Type} (r : result A) (k : A -> result B) : result B :=
  match r with
  | Ok a => k a
  | Err msg => Err msg
  end.

Notation "x <- r ;; k" := (bind r (fun x => k))
  (at level 61, r at next level, right associativity).

(** [r] with its error, if any, passed through [f]. *)
Definition mapErr {A : Type} (f : string -> string) (r : result A) : result A :=
  match r with
  | Ok a => Ok a
  | Err msg => Err (f msg)
  end.

Definition parseLatLng (env : Env.t) (s : string) : result (float * float) :=
  match Split s "," with
  | [p0; p1] =>
      lat <- mapErr (append "invalid latitude: ") (Env.ParseFloat env (TrimSpace p0)) ;;
      lng <- mapErr (append "invalid longitude: ") (Env.ParseFloat env (TrimSpace p1)) ;;
      Ok (lat, lng)
  | _ => Err "invalid lat,lng format"
  end.

(** The GET branch of [HandleRoute] up to the call of [handleRouteRequest]:
    the request it hands on, or the message it rejects the request with
    (every rejection there is [writeError] with [http.StatusBadRequest]). *)
Definition parseGet (env : Env.t) (r : Request.t) : result RouteRequest.t :=
  let get := queryGet (Request.Query r) in
  let from := get "from" in
  let to := get "to" in
  let mode := get "mode" in
  let units := get "units" in
  let country := ToLower (get "country") in
  let fromDesc := get "fromDesc" in
  let toDesc := get "toDesc" in
  if (from =? "")%string || (to =? "")%string
  then Err "both 'from' and 'to' parameters are required"
  else
    countryCode <-
      (if (country =? "")%string then Ok ""
       else if negb (CountryCode_IsValid country)
            then Err "country must be a valid 2-letter ISO code in lowercase"
            else Ok country) ;;
    transportMode <-
      (if (mode =? "")%string then Ok DefaultMode
       else if negb (TransportMode_IsValid (ToLower mode))
            then Err ("invalid mode. Must be one of: " ++ ModeWalking ++ ", " ++ ModeBiking
                      ++ ", " ++ ModeAuto ++ ", " ++ ModeTransit)
            else Ok (ToLower mode)) ;;
    distanceUnit <-
      (if (units =? "")%string then Ok DefaultUnit
       else if negb (DistanceUnit_IsValid (ToLower units))
            then Err ("invalid units. Must be one of: " ++ UnitKilometers ++ ", " ++ UnitMiles)
            else Ok (ToLower units)) ;;
    origin <- mapErr (append "invalid 'from' parameter: ") (parseLatLng env from) ;;
    destination <- mapErr (append "invalid 'to' parameter: ") (parseLatLng env to) ;;
    Ok (RouteRequest.mk (fst origin) (snd origin) (fst destination) (snd destination)
          fromDesc toDesc transportMode distanceUnit countryCode).

(** "Clean up any \r from \r\n line endings": line [i], cleaned. *)
Definition cleanLine (lines : list string) (i : nat) : string :=
  TrimSpace (TrimRight (nth i lines "") CR).

(** The POST branch of [HandleRoute] up to the call of [route]: the request
    it routes, or the message of the stub it answers with. *)
Definition parsePost (env : Env.t) (r : Request.t) : result RouteRequest.t :=
  body <- mapErr (fun _ => "failed to read request body") (Request.Body r) ;;
  let lines := Split (TrimSpace body) (ascii_of_nat 10) in
  if (List.length lines <? 5)%nat then Err "request must contain at least 5 lines"
  else
    let mode := cleanLine lines 0 in
    let country := cleanLine lines 1 in
    let units := cleanLine lines 2 in
    let from := cleanLine lines 3 in
    let to := cleanLine lines 4 in
    let transportMode :=
      if negb (TransportMode_IsValid (ToLower mode)) then DefaultMode else ToLower mode in
    let distanceUnit :=
      if negb (DistanceUnit_IsValid (ToLower units)) then DefaultUnit else ToLower units in
    let countryCode :=
      if negb (CountryCode_IsValid (ToLower country)) then "us" else ToLower country in
    let fromDesc := if (5 <? List.length lines)%nat then cleanLine lines 5 else "" in
    let toDesc := if (6 <? List.length lines)%nat then cleanLine lines 6 else "" in
    origin <- mapErr (fun _ => "invalid 'from' coordinates") (parseLatLng env from) ;;
    destination <- mapErr (fun _ => "invalid 'to' coordinates") (parseLatLng env to) ;;
    Ok (RouteRequest.mk (fst origin) (snd origin) (fst destination) (snd destination)
          fromDesc toDesc transportMode distanceUnit countryCode).



(** ** geocode.go *)

Definition StatusNotFound : Z := 404.

Module GeocodeResponse.
Record t := mk {
  Name : string;
  Address : string;
  Lat : float;
  Lng : float;
  Importance : float;
  Country : string }.
End GeocodeResponse.

(** "Maps for address abbreviations" *)
Definition directionAbbrev : list (string * string) :=
  [ ("north", "N"); ("south", "S"); ("east", "E"); ("west", "W");
    ("northeast", "NE"); ("northwest", "NW"); ("southeast", "SE"); ("southwest", "SW") ].

Definition streetTypeAbbrev : list (string * string) :=
  [ ("avenue", "Ave"); ("boulevard", "Blvd"); ("circle", "Cir"); ("court", "Ct");
    ("drive", "Dr"); ("expressway", "Expy"); ("heights", "Hts"); ("highway", "Hwy");
    ("junction", "Jct"); ("lane", "Ln"); ("parkway", "Pkwy"); ("place", "Pl");
    ("plaza", "Plz"); ("road", "Rd"); ("square", "Sq"); ("street", "St");
    ("terrace", "Ter"); ("trail", "Trl"); ("turnpike", "Tpke"); ("way", "Way") ].

Definition stateAbbrev : list (string * string) :=
  [ ("alabama", "AL"); ("alaska", "AK"); ("arizona", "AZ"); ("arkansas", "AR");
    ("california", "CA"); ("colorado", "CO"); ("connecticut", "CT"); ("delaware", "DE");
    ("florida", "FL"); ("georgia", "GA"); ("hawaii", "HI"); ("idaho", "ID");
    ("illinois", "IL"); ("indiana", "IN"); ("iowa", "IA"); ("kansas", "KS");
    ("kentucky", "KY"); ("louisiana", "LA"); ("maine", "ME"); ("maryland", "MD");
    ("massachusetts", "MA"); ("michigan", "MI"); ("minnesota", "MN"); ("mississippi", "MS");
    ("missouri", "MO"); ("montana", "MT"); ("nebraska", "NE"); ("nevada", "NV");
    ("new hampshire", "NH"); ("new jersey", "NJ"); ("new mexico", "NM"); ("new york", "NY");
    ("north carolina", "NC"); ("north dakota", "ND"); ("ohio", "OH"); ("oklahoma", "OK");
    ("oregon", "OR"); ("pennsylvania", "PA"); ("rhode island", "RI");
    ("south carolina", "SC"); ("south dakota", "SD"); ("tennessee", "TN"); ("texas", "TX");
    ("utah", "UT"); ("vermont", "VT"); ("virginia", "VA"); ("washington", "WA");
    ("west virginia", "WV"); ("wisconsin", "WI"); ("wyoming", "WY") ].

(** A map literal (its keys are distinct) read at a key. *)
Fixpoint mapGet (m : list (string * string)) (key : string) : option string :=
  match m with
  | [] => None
  | (k, v) :: rest => if (k =? key)%string then Some v else mapGet rest key
  end.

(** What [geocode] fails with: [*ErrNoResults], or an error made by
    [fmt.Errorf]. *)
Inductive GeocodeError : Type :=
| ErrNoResults (Query : string)
| errorString (s : string).

Definition GeocodeError_Error (e : GeocodeError) : string :=
  match e with
  | ErrNoResults Query => "no results found for query: " ++ Query
  | errorString s => s
  end.

Module nominatimAddress.
Record t := mk {
  HouseNumber : string;
  Road : string;
  Suburb : string;
  City : string;
  Town : string;
  Village : string;
  County : string;
  State : string;
  PostCode : string;
  Name : string;
  Country : string }.
End nominatimAddress.

Module NameDetails.
Record t := mk {
  Name : string;
  Official : string;
  Alt : string }.
End NameDetails.

Module nominatimResponse.
Record t := mk {
  DisplayName : string;
  NameDetails : NameDetails.t;
  Lat : string;
  Lon : string;
  Address : nominatimAddress.t;
  Importance : float }.
End nominatimResponse.

Definition abbreviateDirection (word : string) : string :=
  match mapGet directionAbbrev (ToLower word) with
  | Some abbrev => abbrev
  | None => word
  end.

Definition abbreviateStreetType (word : string) : string :=
  match mapGet streetTypeAbbrev (ToLower word) with
  | Some abbrev => abbrev
  | None => word
  end.

Definition abbreviateState (state : string) : string :=
  match mapGet stateAbbrev (ToLower state) with
  | Some abbrev => abbrev
  | None => state
  end.

(** [words[0] = f(words[0])] *)
Definition setFirst (f : string -> string) (words : list string) : list string :=
  match words with
  | [] => []
  | w :: rest => f w :: rest
  end.

(** [words[len(words)-1] = f(words[len(words)-1])] *)
Fixpoint setLast (f : string -> string) (words : list string) : list string :=
  match words with
  | [] => []
  | [w] => [f w]
  | w :: rest => w :: setLast f rest
  end.

Definition abbreviateStreetName (street : string) : string :=
  let words := Fields street in
  if (List.length words =? 0)%nat then street
  else
    let words :=
      if (1 <? List.length words)%nat then setFirst abbreviateDirection words else words in
    let words :=
      if (1 <? List.length words)%nat then setLast abbreviateStreetType words else words in
    Join words " ".

(** [formatAddress]: the name, the formatted address and the country
    code. *)
Definition formatAddress (addr : nominatimAddress.t) (nameDetails : NameDetails.t)
  : string * string * string :=
  let name := NameDetails.Official nameDetails in
  let name := if (name =? "")%string then NameDetails.Name nameDetails else name in
  let name := if (name =? "")%string then NameDetails.Alt nameDetails else name in
  let name := if (name =? "")%string then nominatimAddress.Name addr else name in
  let city := nominatimAddress.City addr in
  let city := if (city =? "")%string then nominatimAddress.Town addr else city in
  let city := if (city =? "")%string then nominatimAddress.Village addr else city in
  let city :=
    if (city =? "")%string && negb (nominatimAddress.Suburb addr =? "")%string
    then nominatimAddress.Suburb addr else city in
  let city :=
    if (city =? "")%string && negb (nominatimAddress.County addr =? "")%string
    then nominatimAddress.County addr else city in
  let streetParts : list string := [] in
  let streetParts :=
    if negb (nominatimAddress.HouseNumber addr =? "")%string
    then (streetParts ++ [nominatimAddress.HouseNumber addr])%list else streetParts in
  let streetParts :=
    if negb (nominatimAddress.Road addr =? "")%string
    then (streetParts ++ [abbreviateStreetName (nominatimAddress.Road addr)])%list
    else streetParts in
  let streetAddress := Join streetParts " " in
  let name := if (name =? "")%string then streetAddress else name in
  let addrParts : list string := [] in
  let addrParts :=
    if negb (streetAddress =? "")%string then (addrParts ++ [streetAddress])%list
    else addrParts in
  let cityStateParts : list string := [] in
  let cityStateParts :=
    if negb (city =? "")%string then (cityStateParts ++ [city])%list else cityStateParts in
  let cityStateParts :=
    if negb (nominatimAddress.State addr =? "")%string
       && negb (nominatimAddress.PostCode addr =? "")%string
    then (cityStateParts ++ [(abbreviateState (nominatimAddress.State addr) ++ " "
                              ++ nominatimAddress.PostCode addr)%string])%list
    else if negb (nominatimAddress.State addr =? "")%string
    then (cityStateParts ++ [abbreviateState (nominatimAddress.State addr)])%list
    else if negb (nominatimAddress.PostCode addr =? "")%string
    then (cityStateParts ++ [nominatimAddress.PostCode addr])%list
    else cityStateParts in
  let addrParts :=
    if (0 <? List.length cityStateParts)%nat
    then (addrParts ++ [Join cityStateParts ", "])%list else addrParts in
  (name, Join addrParts ", ", ToLower (nominatimAddress.Country addr)).

(** The reply of the geocoding backend to a GET: the status and what
    [json.NewDecoder(resp.Body).Decode] gives. *)
Module nominatimReply.
Record t := mk {
  StatusCode : Z;
  Decoded : result (list nominatimResponse.t) }.
End nominatimReply.

(** What a geocoding request runs against: the configuration, the backend
    (it answers a call given the calls made before it) and
    [fmt.Sscanf(s, "%f", &f)]. *)
Module GeocodeEnv.
Record t := mk {
  navConfig : NavConfig.t;
  httpGet : History -> string -> list (string * string) -> result nominatimReply.t;
  Sscanf : string -> result float }.
End GeocodeEnv.

Definition parseFloat (env : GeocodeEnv.t) (s : string) : result float :=
  GeocodeEnv.Sscanf env s.

(** The query of the search request, in the order [url.Values.Encode]
    writes the keys. *)
Definition searchQuery (query : string) : list (string * string) :=
  [ ("addressdetails", "1"); ("format", "json"); ("limit", "5"); ("namedetails", "1");
    ("q", query) ].

(** The loop "Convert nominatim results to our format". *)
Fixpoint convertResults (env : GeocodeEnv.t) (nominatimResults : list nominatimResponse.t)
  : result (list GeocodeResponse.t) :=
  match nominatimResults with
  | [] => Ok []
  | result :: rest =>
      lat <- mapErr (append "error parsing latitude: ")
               (parseFloat env (nominatimResponse.Lat result)) ;;
      lng <- mapErr (append "error parsing longitude: ")
               (parseFloat env (nominatimResponse.Lon result)) ;;
      let '(name, addr, country) :=
        formatAddress (nominatimResponse.Address result)
          (nominatimResponse.NameDetails result) in
      results <- convertResults env rest ;;
      Ok (GeocodeResponse.mk name addr lat lng (nominatimResponse.Importance result) country
            :: results)
  end.

(** [geocode]: the results or the error, and the calls made. *)
Definition geocode (env : GeocodeEnv.t) (h : History) (query : string)
  : (GeocodeError + list GeocodeResponse.t) * History :=
  let apiURL := NavConfig.NominatimURL (GeocodeEnv.navConfig env) ++ "/search" in
  let h' := (h ++ [Get apiURL (searchQuery query)])%list in
  match GeocodeEnv.httpGet env h apiURL (searchQuery query) with
  | Err err => (inl (errorString ("error making request to Nominatim: " ++ err)), h')
  | Ok resp =>
      if negb (nominatimReply.StatusCode resp =? StatusOK)
      then (inl (errorString ("nominatim API returned status: "
                              ++ fmt_d (nominatimReply.StatusCode resp))), h')
      else
        match nominatimReply.Decoded resp with
        | Err err => (inl (errorString ("error decoding response: " ++ err)), h')
        | Ok nominatimResults =>
            if (List.length nominatimResults =? 0)%nat then (inl (ErrNoResults query), h')
            else
              match convertResults env nominatimResults with
              | Err err => (inl (errorString err), h')
              | Ok results => (inr results, h')
              end
        end
  end.

(** ** The geocoding handler *)

(** What is written to a geocoding response: text, or the JSON encoding of
    a value (kept as the value). *)
Inductive GeocodePayload : Type :=
| GeocodeText (s : string)
| GeocodeJSONError (e : ErrorResponse.t)
| GeocodeJSONResults (results : list GeocodeResponse.t).

(** The response writer of the geocoding handler: the Content-Type header,
    the status (200 unless [WriteHeader] is called) and the payloads
    written, in order. *)
Module GeocodeWriter.
Record t := mk {
  ContentType : string;
  Status : Z;
  Written : list GeocodePayload }.
Definition fresh : t := mk "" StatusOK [].
End GeocodeWriter.

Definition geocodeWrite (w : GeocodeWriter.t) (p : GeocodePayload) : GeocodeWriter.t :=
  GeocodeWriter.mk (GeocodeWriter.ContentType w) (GeocodeWriter.Status w)
    (GeocodeWriter.Written w ++ [p]).

(** [writeError] on a geocoding response. *)
Definition geocodeWriteError (w : GeocodeWriter.t) (code : Z) (message : string)
  : GeocodeWriter.t :=
  GeocodeWriter.mk "application/json" code
    (GeocodeWriter.Written w ++ [GeocodeJSONError (ErrorResponse.mk message)]).

(** [http.Error(w, error, code)]: the Content-Type, the status and the
    message on a line. *)
Definition httpError (w : GeocodeWriter.t) (error : string) (code : Z) : GeocodeWriter.t :=
  GeocodeWriter.mk "text/plain; charset=utf-8" code
    (GeocodeWriter.Written w ++ [GeocodeText (error ++ LF)]).

(** [encoding/json] encodes the result: none of its numbers is a NaN or an
    infinity. *)
Definition marshals (r : GeocodeResponse.t) : bool :=
  match unsupportedFloat (GeocodeResponse.Lat r), unsupportedFloat (GeocodeResponse.Lng r),
        unsupportedFloat (GeocodeResponse.Importance r) with
  | None, None, None => true
  | _, _, _ => false
  end.

(** [writeJSON(w, results)]: [Encode] writes nothing when it fails, and its
    error is dropped. *)
Definition writeResults (w : GeocodeWriter.t) (results : list GeocodeResponse.t)
  : GeocodeWriter.t :=
  let w := GeocodeWriter.mk "application/json" (GeocodeWriter.Status w)
             (GeocodeWriter.Written w) in
  if forallb marshals results then geocodeWrite w (GeocodeJSONResults results) else w.

(** "Output each result as 4 consecutive lines" *)
Fixpoint writeResultLines (w : GeocodeWriter.t) (results : list GeocodeResponse.t)
  : GeocodeWriter.t :=
  match results with
  | [] => w
  | result :: rest =>
      let w :=
        geocodeWrite w
          (GeocodeText (fmt_f 4 (GeocodeResponse.Lat result) ++ ","
                        ++ fmt_f 4 (GeocodeResponse.Lng result) ++ LF
                        ++ GeocodeResponse.Name result ++ LF
                        ++ GeocodeResponse.Address result ++ LF
                        ++ GeocodeResponse.Country result ++ LF)) in
      writeResultLines w rest
  end.

(** "Return plain text format for POST requests" *)
Definition writePlainTextResults (w : GeocodeWriter.t) (results : list GeocodeResponse.t)
  : GeocodeWriter.t :=
  let w := GeocodeWriter.mk "text/plain" (GeocodeWriter.Status w) (GeocodeWriter.Written w) in
  let w := geocodeWrite w (GeocodeText (fmt_d (Z.of_nat (List.length results)) ++ LF)) in
  writeResultLines w results.

(** [HandleGeocode] handles the /nav/geocode endpoint. *)
Definition HandleGeocode (env : GeocodeEnv.t) (h : History) (w : GeocodeWriter.t)
  (r : Request.t) : GeocodeWriter.t * History :=
  if (Request.Method r =? MethodGet)%string then
    let query := queryGet (Request.Query r) "q" in
    if (query =? "")%string
    then (geocodeWriteError w StatusBadRequest "query parameter 'q' is required", h)
    else
      match geocode env h query with
      | (inl (ErrNoResults q), h') =>
          (geocodeWriteError w StatusNotFound (GeocodeError_Error (ErrNoResults q)), h')
      | (inl err, h') =>
          (geocodeWriteError w StatusInternalServerError (GeocodeError_Error err), h')
      | (inr results, h') => (writeResults w results, h')
      end
  else if (Request.Method r =? MethodPost)%string then
    match Request.Body r with
    | Err _ => (geocodeWriteError w StatusBadRequest "failed to read request body", h)
    | Ok body =>
        let query := TrimSpace body in
        if (query =? "")%string
        then (geocodeWriteError w StatusBadRequest "request body cannot be empty", h)
        else
          match geocode env h query with
          | (inl (ErrNoResults q), h') =>
              (httpError w (GeocodeError_Error (ErrNoResults q)) StatusNotFound, h')
          | (inl err, h') =>
              (httpError w (GeocodeError_Error err) StatusInternalServerError, h')
          | (inr results, h') => (writePlainTextResults w results, h')
          end
    end
  else
    (geocodeWriteError w StatusMethodNotAllowed "only GET and POST methods are allowed", h).


End Nav.

(** * Sample data *)

Module Sample.
Import Go Nav.

(** The encoded curve of the specification's scenario: (38.5, -120.2),
    (40.7, -120.95), (43.252, -126.453). *)
Definition curve : string := "_p~iF~ps|U_ulLnnqC_mqNvxq`@".

(** The same trip back: (43.252, -126.453), (41.0, -124.0), (38.5, -120.2). *)
Definition curveBack : string := "_t~fGfzxbW~yvLgb~M~ggN_eeV".

Definition clock : History -> Time.t := fun _ => Time.mk "2024-05-01" "09:30".

(** The value of an unsigned decimal numeral, most significant digit
    first. *)
Fixpoint numeral (s : string) (acc : Z) : option Z :=
  match s with
  | EmptyString => Some acc
  | String c r =>
      let d := byteVal c - 48 in
      if (0 <=? d) && (d <=? 9) then numeral r (10 * acc + d) else None
  end.

(** [strconv.ParseFloat] on the texts the sample requests carry: unsigned
    decimal integers (below 2^53) parse to their value, and a text without
    any digit is a syntax error. *)
Definition parseInteger (s : string) : result float :=
  match s with
  | EmptyString => Err "strconv.ParseFloat: parsing: invalid syntax"
  | _ =>
      match numeral s 0 with
      | Some z => Ok (float64 z)
      | None => Err "strconv.ParseFloat: parsing: invalid syntax"
      end
  end.

(** Only the direct-routing backend is configured. *)
Definition directOnly : NavConfig.t :=
  NavConfig.mk "http://nominatim.test/search" "http://valhalla.test/route" "" "".

(** Both backends are configured. *)
Definition withItineraries : NavConfig.t :=
  NavConfig.mk "http://nominatim.test/search" "http://valhalla.test/route"
    "http://transit.test/api/v2" "key".

(** The structured error 170 of the direct-routing backend. *)
Definition notConnected : valhallaReply.t :=
  valhallaReply.mk 400 (Ok "{error_code:170}")
    (Some (valhallaError.mk 170 "No path could be found for input" 400 "Bad Request"))
    (Ok (valhallaResponse.mk [] 0 0)).

(** A gateway in front of the backend answering in its place, in two
    lines of text. *)
Definition badGateway : valhallaReply.t :=
  valhallaReply.mk 502 (Ok ("Bad Gateway" ++ LF ++ "upstream timed out"))
    None (Err "invalid character 'B' looking for beginning of value").

(** A trip of two legs, of one and two maneuvers. *)
Definition twoLegs : valhallaResponse.t :=
  valhallaResponse.mk
    [ valhallaLeg.mk [ valhallaManeuver.mk 1 "Drive north on Main Street." 0.5 ] curve;
      valhallaLeg.mk [ valhallaManeuver.mk 15 "Turn left onto Oak Avenue." 1.2;
                       valhallaManeuver.mk 4 "You have arrived at your destination." 0 ]
        curveBack ]
    625 3.2.

(** A trip of one leg of three maneuvers. *)
Definition oneLeg : valhallaResponse.t :=
  valhallaResponse.mk
    [ valhallaLeg.mk [ valhallaManeuver.mk 1 "Drive north on Main Street." 0.5;
                       valhallaManeuver.mk 15 "Turn left onto Oak Avenue." 2.7;
                       valhallaManeuver.mk 4 "You have arrived at your destination." 0 ]
        curve ]
    625 3.2.

Definition served (vResp : valhallaResponse.t) : valhallaReply.t :=
  valhallaReply.mk 200 (Ok "{trip}") None (Ok vResp).

(** An itinerary of a walk to the stop and a bus ride back along the same
    way. *)
Definition thereAndBack : Itinerary.t :=
  Itinerary.mk 1800 600 1200 450
    [ transitLeg.mk "WALK" 450 600 "Origin" "Pine St" "" "" "" "" curve [];
      transitLeg.mk "BUS" 5200 1200 "Pine St" "Oak St" "r1" "10" "Crosstown" "Metro"
        curveBack [ transitStop.mk "Elm St" "s2" "2" ] ].

Definition planned (itinerary : Itinerary.t) : transitlandReply.t :=
  transitlandReply.mk 200 (Ok "{plan}") (Ok (transitlandResponse.mk [itinerary])).

Definition noPlan : transitlandReply.t :=
  transitlandReply.mk 404 (Ok "not found") (Err "unexpected end of JSON input").

(** A world whose direct-routing backend always answers [reply] and whose
    itinerary backend always answers [plan]. *)
Definition world (cfg : NavConfig.t) (reply : valhallaReply.t) (plan : transitlandReply.t)
  : Env.t :=
  Env.mk cfg clock (fun _ _ _ => Ok reply) (fun _ _ _ => Ok plan) parseInteger.

Definition transitRequest : RouteRequest.t :=
  RouteRequest.mk 1 2 3 4 "Home" "Work" ModeTransit "" "".

Definition autoRequest : RouteRequest.t :=
  RouteRequest.mk 1 2 3 4 "Home" "Work" ModeAuto UnitKilometers "".

(** The request the POST branch builds from the five lines auto, us, km,
    1,2 and 3,4. *)
Definition postedRequest : RouteRequest.t :=
  RouteRequest.mk 1 2 3 4 "" "" ModeAuto UnitKilometers "us".

Definition usTransitRequest : RouteRequest.t :=
  RouteRequest.mk 1 2 3 4 "Home" "Work" ModeTransit UnitMiles "us".


(** A POST request of five lines: mode, country, units, origin and
    destination. *)
Definition postRequest (mode country units origin destination : string) : Request.t :=
  Request.mk MethodPost []
    (Ok (mode ++ LF ++ country ++ LF ++ units ++ LF ++ origin ++ LF ++ destination ++ LF)).


(** [fmt.Sscanf] with the verb [%f] on the texts of the sample candidates:
    an unsigned decimal integer (below 2^53) scans to its value; any other
    text fails here the way an empty one does. *)
Definition scanInteger (s : string) : result float :=
  match s with
  | EmptyString => Err "unexpected EOF"
  | _ =>
      match numeral s 0 with
      | Some z => Ok (float64 z)
      | None => Err "unexpected EOF"
      end
  end.

(** A candidate with a name of its own. *)
Definition cityHall : nominatimResponse.t :=
  nominatimResponse.mk "City Hall, Springfield" (NameDetails.mk "City Hall" "" "") "39" "89"
    (nominatimAddress.mk "800" "East Monroe Street" "" "Springfield" "" "" "Sangamon County"
       "Illinois" "62701" "" "US")
    0.5.

(** A candidate known by its street only. *)
Definition mainStreet : nominatimResponse.t :=
  nominatimResponse.mk "North Main Street" (NameDetails.mk "" "" "") "40" "88"
    (nominatimAddress.mk "" "North Main Street" "" "" "Normal" "" "" "Illinois" "" "" "us")
    0.25.

(** A geocoding backend that knows two places, and none for the query
    nowhere. *)
Definition atlas : GeocodeEnv.t :=
  GeocodeEnv.mk directOnly
    (fun _ _ query =>
       if (queryGet query "q" =? "nowhere")%string
       then Ok (nominatimReply.mk 200 (Ok []))
       else Ok (nominatimReply.mk 200 (Ok [cityHall; mainStreet])))
    scanInteger.

Definition geocodePost (body : string) : Request.t :=
  Request.mk MethodPost [] (Ok body).


End Sample.

(** * Properties *)

Import Go Nav.

(** ** Vocabulary *)

(** A point of the grid, both ends included. *)
Definition onGrid (p : PathPoint) : Prop :=
  0 <= fst p <= NormalizedGridSize /\ 0 <= snd p <= NormalizedGridSize.

(** |dx| + |dy| *)
Definition distance1 (p q : PathPoint) : Z :=
  Z.abs (fst p - fst q) + Z.abs (snd p - snd q).

(** The dedup guarantee: any two points of the path, at different
    positions, are more than 2 apart. *)
Definition farApart (path : list PathPoint) : Prop :=
  forall i j p q, (i < j)%nat ->
    nth_error path i = Some p -> nth_error path j = Some q ->
    2 < distance1 p q.

(** What the second pass keeps true of the retained points. *)
Definition retained (path : list PathPoint) : Prop :=
  Forall onGrid path /\ farApart path.

(** The reply that makes a transit request fall back: a status other than
    200, a readable body that unmarshals into the error struct, and the
    error code 170 in it. *)
Definition notConnectedReply (resp : valhallaReply.t) : Prop :=
  valhallaReply.StatusCode resp <> StatusOK
  /\ (exists body, valhallaReply.Body resp = Ok body)
  /\ (exists e, valhallaReply.Error resp = Some e /\ valhallaError.ErrorCode e = 170).

(** The response [r] was assembled by the direct-routing adapter from
    [vResp], the decoded body of the 200 reply to the last call made. *)
Definition fromValhalla (env : Env.t) (h' : History) (r : RouteResponse.t)
  (vResp : valhallaResponse.t) : Prop :=
  exists h0 req vReq resp,
    h' = (h0 ++ [Post (NavConfig.ValhallaURL (Env.navConfig env)) vReq])%list
    /\ Env.httpPost env h0 (NavConfig.ValhallaURL (Env.navConfig env)) vReq = Ok resp
    /\ valhallaReply.StatusCode resp = StatusOK
    /\ valhallaReply.Decoded resp = Ok vResp
    /\ valhallaRouteResponse req vResp = Some r.

(** The response [r] was assembled by the itinerary adapter for [req] from
    [itinerary], the first itinerary of the plan in the 200 reply to the one
    call made. *)
Definition fromTransitland (env : Env.t) (h h' : History) (req : RouteRequest.t)
  (r : RouteResponse.t) (itinerary : Itinerary.t) : Prop :=
  exists url query resp tResp others,
    h' = (h ++ [Get url query])%list
    /\ Env.httpGet env h url query = Ok resp
    /\ transitlandReply.StatusCode resp = StatusOK
    /\ transitlandReply.Decoded resp = Ok tResp
    /\ transitlandResponse.Itineraries tResp = itinerary :: others
    /\ itineraryResponse req itinerary = Some r.

(** 1, 2, ..., n *)
Definition oneTo (n : nat) : list Z := map Z.of_nat (seq 1 n).

(** The maneuvers the direct-routing adapter turns into steps: those of the
    first leg of the trip. *)
Definition firstLegManeuvers (vResp : valhallaResponse.t) : list valhallaManeuver.t :=
  match valhallaResponse.Legs vResp with
  | [] => []
  | leg :: _ => valhallaLeg.Maneuvers leg
  end.

(** All the maneuvers of the trip, leg after leg. *)
Definition allManeuvers (vResp : valhallaResponse.t) : list valhallaManeuver.t :=
  flat_map valhallaLeg.Maneuvers (valhallaResponse.Legs vResp).

(** [itinerary] with other legs in place of its own. *)
Definition withLegs (itinerary : Itinerary.t) (legs : list transitLeg.t) : Itinerary.t :=
  Itinerary.mk (Itinerary.Duration itinerary) (Itinerary.WalkTime itinerary)
    (Itinerary.TransitTime itinerary) (Itinerary.WalkDistance itinerary) legs.

(** The text of a sequence of lines, each ended by a line feed. *)
Fixpoint unlines (lines : list string) : string :=
  match lines with
  | [] => ""
  | line :: rest => line ++ LF ++ unlines rest
  end.




(** The icon tokens a step can carry. *)
Definition iconVocabulary : list string :=
  [ "Bus"; "Train"; "Ferry"; "Walk"; "Right"; "Left"; "right"; "left"; "Straight";
    "Merge"; "Exit"; "building"; ""; "Cycle"; "Drive" ].

(** The errors [route] returns before it calls a backend. *)
Definition rejectedBeforeCalling (msg : string) : Prop :=
  msg = "transitland configuration not complete"
  \/ msg = "invalid units: must be one of: km, mi"
  \/ exists err, msg = "error marshaling request: " ++ err.

(** The last byte of a string, if it has one. *)
Fixpoint lastByte (s : string) : option ascii :=
  match s with
  | EmptyString => None
  | String c EmptyString => Some c
  | String _ r => lastByte r
  end.

(** A byte of an encoded curve that announces a further byte of the same
    number. *)
Definition continuation (c : ascii) : bool := 32 <=? byteVal c - 63.

(** The format the decoder reads, written the other way round. A number
    that is not negative is cut into groups of five bits from the lowest;
    every group but the last is marked with the bit 0x20, and 63 is added
    to each to give a byte. *)
Equations? encodeUnsigned (v : Z) : string by wf (Z.to_nat v) lt :=
encodeUnsigned v with inspect (v <? 32) := {
  | exist _ true _ := String (ascii_of_N (Z.to_N (v + 63))) EmptyString;
  | exist _ false Hbig :=
      String (ascii_of_N (Z.to_N (Z.lor 32 (Z.land v 31) + 63)))
        (encodeUnsigned (Z.shiftr v 5)) }.
Proof.
  apply Z.ltb_ge in Hbig. rewrite Z.shiftr_div_pow2 by lia.
  apply Z2Nat.inj_lt; [ apply Z.div_pos; lia | lia | apply Z.div_lt; lia ].
Qed.

(** A signed number is doubled, and inverted bit by bit when it is
    negative, so that its sign sits in the lowest bit. *)
Definition encodeSigned (d : Z) : string :=
  encodeUnsigned (if d <? 0 then Z.lnot (Z.shiftl d 1) else Z.shiftl d 1).

(** The curve of the points [pts], given in units of 10^-5 degrees as
    (latitude, longitude): each point is written as its difference from the
    point before it, the first one from (0, 0). *)
Fixpoint encodeFrom (lat lng : Z) (pts : list (Z * Z)) : string :=
  match pts with
  | [] => ""
  | (lat', lng') :: rest =>
      encodeSigned (lat' - lat) ++ encodeSigned (lng' - lng) ++ encodeFrom lat' lng' rest
  end.

Definition encodePolyline (pts : list (Z * Z)) : string := encodeFrom 0 0 pts.

(** Coordinates the round trip is stated for: far more than the 9 000 000
    and 18 000 000 that latitudes and longitudes reach. *)
Definition encodable (p : Z * Z) : Prop :=
  - 2 ^ 60 <= fst p <= 2 ^ 60 /\ - 2 ^ 60 <= snd p <= 2 ^ 60.

(** The geographic point the decoder makes of a point given in units of
    10^-5 degrees. *)
Definition degrees (p : Z * Z) : float * float :=
  ((float64 (fst p) / factor)%float, (float64 (snd p) / factor)%float).

(** The number of bytes of [s] equal to [sep]. *)
Fixpoint occurrences (sep : ascii) (s : string) : nat :=
  match s with
  | EmptyString => 0
  | String c r => ((if Ascii.eqb c sep then 1 else 0) + occurrences sep r)%nat
  end.


(** The call [geocode] makes for a query. *)
Definition searchCall (env : GeocodeEnv.t) (query : string) : Call :=
  Get (NavConfig.NominatimURL (GeocodeEnv.navConfig env) ++ "/search") (searchQuery query).

(** A result made from a candidate of the geocoding backend. *)
Definition converted (env : GeocodeEnv.t) (c : nominatimResponse.t) (r : GeocodeResponse.t)
  : Prop :=
  GeocodeEnv.Sscanf env (nominatimResponse.Lat c) = Ok (GeocodeResponse.Lat r)
  /\ GeocodeEnv.Sscanf env (nominatimResponse.Lon c) = Ok (GeocodeResponse.Lng r)
  /\ GeocodeResponse.Importance r = nominatimResponse.Importance c
  /\ formatAddress (nominatimResponse.Address c) (nominatimResponse.NameDetails c)
     = (GeocodeResponse.Name r, GeocodeResponse.Address r, GeocodeResponse.Country r).

(** The bytes of the body of a geocoding response written as text only. *)
Fixpoint geocodeText (written : list GeocodePayload) : string :=
  match written with
  | [] => ""
  | GeocodeText s :: rest => s ++ geocodeText rest
  | _ :: rest => geocodeText rest
  end.



(** A request to the direct-routing backend that asks for the way from the
    origin to the destination of [req], both written with finite numbers, in
    the units of [req], with the costing of its mode or the auto costing. *)
Definition asksFor (req : RouteRequest.t) (vReq : valhallaRequest.t) : Prop :=
  valhallaRequest.Locations vReq
  = [ valhallaLocation.mk (RouteRequest.FromLat req) (RouteRequest.FromLng req) "break";
      valhallaLocation.mk (RouteRequest.ToLat req) (RouteRequest.ToLng req) "break" ]
  /\ Forall (fun f => is_nan f = false /\ is_infinity f = false)
       [ RouteRequest.FromLat req; RouteRequest.FromLng req;
         RouteRequest.ToLat req; RouteRequest.ToLng req ]
  /\ valhallaRequest.Units vReq
     = (if (RouteRequest.Units req =? "mi")%string then "miles" else "kilometers")
  /\ (valhallaRequest.Costing vReq = getTransportMode (RouteRequest.Mode req)
      \/ valhallaRequest.Costing vReq = "auto").


(** A text without white space. *)
Fixpoint spaceFree (s : string) : bool :=
  match s with
  | EmptyString => true
  | String c r => negb (isSpace c) && spaceFree r
  end.

(** A word: a text that is not empty and holds no white space. *)
Definition isWord (w : string) : Prop := w <> "" /\ spaceFree w = true.

(** What [abbreviateDirection], [abbreviateStreetType] and
    [abbreviateState] do, for the map each reads. *)
Definition abbreviateWith (m : list (string * string)) (word : string) : string :=
  match mapGet m (ToLower word) with
  | Some abbrev => abbrev
  | None => word
  end.


(** ** The polyline decoder and normalizer *)

Lemma toGrid_range v lo range : 0 <= toGrid v lo range <= NormalizedGridSize.
Proof.
  unfold toGrid, max, min, NormalizedGridSize.
  generalize (int (Round ((v - lo) / range * float64 100)%float)); intro x.
  destruct (100 <? x) eqn:E1.
  - simpl. lia.
  - apply Z.ltb_ge in E1.
    destruct (0 >? x) eqn:E2; [ lia | ].
    rewrite Z.gtb_ltb in E2. apply Z.ltb_ge in E2. lia.
Qed.

Lemma abs_small x : -100 <= x <= 100 -> abs x = Z.abs x.
Proof.
  intros Hx. unfold abs.
  destruct (x <? 0) eqn:E.
  - apply Z.ltb_lt in E. unfold wrap64.
    rewrite Z.mod_small by lia. lia.
  - apply Z.ltb_ge in E. lia.
Qed.

Lemma manhattan_distance1 p q : onGrid p -> onGrid q -> manhattan p q = distance1 p q.
Proof.
  unfold onGrid, NormalizedGridSize, manhattan, distance1.
  intros [Hx Hy] [Hx' Hy'].
  rewrite !abs_small by lia. reflexivity.
Qed.

Lemma farApart_nil : farApart [].
Proof. intros i j p q _ Hi. destruct i; discriminate. Qed.

Lemma farApart_snoc path p :
  farApart path ->
  (forall q, In q path -> 2 < distance1 q p) ->
  farApart (path ++ [p]).
Proof.
  intros Hpath Hp i j a b Hij Ha Hb.
  assert (Hj : (j < List.length (path ++ [p])%list)%nat) by (apply nth_error_Some; congruence).
  rewrite length_app in Hj; simpl in Hj.
  rewrite nth_error_app1 in Ha by lia.
  destruct (Nat.eq_dec j (List.length path)) as [-> | Hne].
  - rewrite nth_error_app2, Nat.sub_diag in Hb by lia.
    inversion Hb; subst b.
    apply Hp. eapply nth_error_In; eassumption.
  - rewrite nth_error_app1 in Hb by lia.
    exact (Hpath i j a b Hij Ha Hb).
Qed.

Lemma isDuplicate_false path p :
  isDuplicate path p = false ->
  forall q, In q path -> 2 < manhattan p q.
Proof.
  unfold isDuplicate. intros H q Hq.
  destruct (manhattan p q <=? 2) eqn:E; [ | apply Z.leb_gt in E; lia ].
  assert (existsb (fun existing => manhattan p existing <=? 2) path = true)
    by (apply existsb_exists; eauto).
  congruence.
Qed.

Lemma retain_retained path p : retained path -> onGrid p -> retained (retain path p).
Proof.
  intros [Hgrid Hfar] Hp. unfold retain.
  destruct (isDuplicate path p) eqn:E; [ split; assumption | ].
  split.
  - apply Forall_app. split; [ assumption | constructor; [ assumption | constructor ] ].
  - apply farApart_snoc; [ assumption | ].
    intros q Hq.
    pose proof (isDuplicate_false _ _ E q Hq) as Hd.
    rewrite manhattan_distance1 in Hd
      by (try assumption; eapply Forall_forall; eassumption).
    unfold distance1 in *. lia.
Qed.

Lemma fold_retained {A : Type} (place : A -> PathPoint) (raw : list A) :
  (forall a, onGrid (place a)) ->
  forall acc, retained acc ->
    retained (fold_left (fun normalizedPoints a => retain normalizedPoints (place a)) raw acc).
Proof.
  intros Hplace. induction raw as [|a raw IH]; intros acc Hacc; simpl.
  - assumption.
  - apply IH. apply retain_retained; [ assumption | apply Hplace ].
Qed.

Lemma normalize_retained rawPoints : retained (normalize rawPoints).
Proof.
  unfold normalize. destruct rawPoints as [|p0 rest].
  - split; [ constructor | apply farApart_nil ].
  - destruct (bounds p0 rest) as [[[minLat maxLat] minLng] maxLng].
    apply (fold_retained
             (fun p => (toGrid (snd p) minLng (spanOf minLng maxLng),
                        toGrid (fst p) minLat (spanOf minLat maxLat)))).
    + intros a. split; apply toGrid_range.
    + split; [ constructor | apply farApart_nil ].
Qed.

Lemma decodePolyline_retained encoded points :
  decodePolyline encoded = Some points -> retained points.
Proof.
  unfold decodePolyline.
  destruct (encoded =? "")%string.
  - intros H; inversion H; subst. split; [ constructor | apply farApart_nil ].
  - destruct (decodeLoop encoded 0 0 []) as [rawPoints|]; simpl; [ | discriminate ].
    intros H; inversion H; subst. apply normalize_retained.
Qed.

(** C2. Whatever curve is decoded, two points the decoder retains are never
    within Manhattan distance 2 of each other: a point kept later is more
    than 2 away from every point kept before it. *)
Theorem decodePolyline_far_apart (encoded : string) (points : list PathPoint) :
  decodePolyline encoded = Some points ->
  forall i j p q, (i < j)%nat ->
    nth_error points i = Some p -> nth_error points j = Some q ->
    2 < Z.abs (fst p - fst q) + Z.abs (snd p - snd q).
Proof.
  intros H. apply decodePolyline_retained in H. destruct H as [_ Hfar].
  exact Hfar.
Qed.

Lemma decodePolyline_far_apart_witness :
  decodePolyline Sample.curve = Some [(100, 0); (88, 46); (0, 100)]
  /\ 2 < Z.abs (100 - 88) + Z.abs (0 - 46)
  /\ 2 < Z.abs (88 - 0) + Z.abs (46 - 100).
Proof.
  assert (H : decodePolyline Sample.curve = Some [(100, 0); (88, 46); (0, 100)])
    by (vm_compute; reflexivity).
  split; [ exact H | split ].
  - exact (decodePolyline_far_apart _ _ H 0%nat 1%nat (100, 0) (88, 46)
             (le_n 1) eq_refl eq_refl).
  - exact (decodePolyline_far_apart _ _ H 1%nat 2%nat (88, 46) (0, 100)
             (le_n 2) eq_refl eq_refl).
Defined.

(** C3, as the code has it. Every point the decoder produces for a
    well-formed curve has both coordinates in [0, NormalizedGridSize], that
    is [0, 100] with both ends included. *)
Theorem decodePolyline_on_grid (encoded : string) (points : list PathPoint) :
  decodePolyline encoded = Some points ->
  forall p, In p points ->
    0 <= fst p <= 100 /\ 0 <= snd p <= 100.
Proof.
  intros H p Hp. apply decodePolyline_retained in H. destruct H as [Hgrid _].
  exact (proj1 (Forall_forall _ _) Hgrid p Hp).
Qed.

Lemma decodePolyline_on_grid_witness :
  decodePolyline Sample.curve = Some [(100, 0); (88, 46); (0, 100)]
  /\ (0 <= 88 <= 100 /\ 0 <= 46 <= 100).
Proof.
  assert (H : decodePolyline Sample.curve = Some [(100, 0); (88, 46); (0, 100)])
    by (vm_compute; reflexivity).
  split; [ exact H | ].
  exact (decodePolyline_on_grid _ _ H (88, 46) (or_intror (or_introl eq_refl))).
Defined.

(** C3, as the specification words it, fails: the easternmost point of a
    curve is placed at x = 100, outside [0, 99]. *)
Lemma decodePolyline_reaches_100 :
  exists points p,
    decodePolyline Sample.curve = Some points /\ In p points
    /\ ~ (0 <= fst p <= 99 /\ 0 <= snd p <= 99).
Proof.
  exists [(100, 0); (88, 46); (0, 100)], (100, 0).
  split; [ vm_compute; reflexivity | ].
  split; [ left; reflexivity | ].
  simpl. lia.
Qed.

(** ** The router *)

(** [route] is its activation, run again on the request a fallback hands
    over. *)
Lemma route_unfold env h req :
  route env h req =
  match routeActivation env h req with
  | Return out h' => (out, h')
  | Reroute req' h' => route env h' req'
  end.
Proof.
  funelim (route env h req);
    match goal with E : routeActivation _ _ _ = _ |- _ => rewrite E end;
    reflexivity.
Qed.

(** A request whose mode is not transit is settled by one activation. *)
Lemma routeActivation_final env h req :
  RouteRequest.Mode req <> ModeTransit ->
  exists out h', routeActivation env h req = Return out h'.
Proof.
  intros Hmode.
  destruct (routeActivation env h req) as [out h'|req' h'] eqn:E.
  - eauto.
  - apply routeActivation_Reroute in E. tauto.
Qed.

Lemma validateUnits_withMode req req0 mode :
  validateUnits req = Ok req0 ->
  validateUnits (withMode req0 mode) = Ok (withMode req0 mode).
Proof.
  unfold validateUnits.
  destruct (RouteRequest.Units req =? "")%string eqn:E.
  - intros H; inversion H; subst. reflexivity.
  - destruct (DistanceUnit_IsValid (RouteRequest.Units req)) eqn:V; simpl; [ | discriminate ].
    intros H; inversion H; subst. simpl. rewrite E, V. reflexivity.
Qed.

Lemma buildValhallaRequest_Locations now now' req mode :
  valhallaRequest.Locations (buildValhallaRequest now (withMode req mode))
  = valhallaRequest.Locations (buildValhallaRequest now' req).
Proof.
  unfold buildValhallaRequest; simpl.
  destruct (mode =? ModeTransit)%string, (RouteRequest.Mode req =? ModeTransit)%string;
    reflexivity.
Qed.

Lemma onValhallaReply_notConnected req resp h :
  notConnectedReply resp ->
  onValhallaReply req resp h =
  if (RouteRequest.Mode req =? ModeTransit)%string
  then Reroute (withMode req ModeAuto) h
  else Return (Some (Err "no route found: locations are not connected in the transportation network")) h.
Proof.
  intros (Hs & (body & Hb) & (e & He & Hc)).
  unfold onValhallaReply.
  apply Z.eqb_neq in Hs. rewrite Hs, Hb, He. simpl.
  apply Z.eqb_eq in Hc. rewrite Hc. reflexivity.
Qed.

(** An activation that takes the direct-routing adapter, up to the reply
    of the backend. *)
Lemma routeActivation_direct env h req req0 :
  usesItinerary (Env.navConfig env) req = false ->
  validateUnits req = Ok req0 ->
  marshalError (valhallaRequest.Locations (buildValhallaRequest (Env.now env h) req0)) = None ->
  routeActivation env h req =
  let url := NavConfig.ValhallaURL (Env.navConfig env) in
  let vReq := buildValhallaRequest (Env.now env h) req0 in
  let h' := (h ++ [Post url vReq])%list in
  match Env.httpPost env h url vReq with
  | Err err => Return (Some (Err ("error making request to Valhalla: " ++ err))) h'
  | Ok resp => onValhallaReply req0 resp h'
  end.
Proof.
  intros Hdirect Hunits Hmarshal.
  unfold routeActivation. rewrite Hdirect, Hunits, Hmarshal. reflexivity.
Qed.

Lemma onValhallaReply_history req resp h out h' :
  onValhallaReply req resp h = Return out h' -> h' = h.
Proof.
  unfold onValhallaReply.
  repeat match goal with
         | |- context [match ?x with _ => _ end] => destruct x
         end; intros H; inversion H; reflexivity.
Qed.

(** C1. A transit request that reaches the direct-routing backend and is
    answered with the structured error 170 is issued again with its mode
    forced to auto: the engine makes exactly two calls, the second with the
    auto costing; the outcome of the route is the outcome of that second
    activation as it stands, whatever it is; and when the second call is
    answered with error 170 again, the outcome is the "not connected" error
    and no further call is made. *)
Theorem route_falls_back_once (env : Env.t) (h : History) (req req0 : RouteRequest.t)
  (resp : valhallaReply.t) :
  let url := NavConfig.ValhallaURL (Env.navConfig env) in
  let first := buildValhallaRequest (Env.now env h) req0 in
  let h1 := (h ++ [Post url first])%list in
  let retried := withMode req0 ModeAuto in
  let second := buildValhallaRequest (Env.now env h1) retried in
  let h2 := (h1 ++ [Post url second])%list in
  RouteRequest.Mode req = ModeTransit ->
  usesItinerary (Env.navConfig env) req = false ->
  validateUnits req = Ok req0 ->
  marshalError (valhallaRequest.Locations first) = None ->
  Env.httpPost env h url first = Ok resp ->
  notConnectedReply resp ->
  valhallaRequest.Costing first = "transit"
  /\ valhallaRequest.Costing second = "auto"
  /\ exists out,
       route env h req = (out, h2)
       /\ routeActivation env h1 retried = Return out h2
       /\ (forall resp', Env.httpPost env h1 url second = Ok resp' ->
             notConnectedReply resp' ->
             out = Some (Err "no route found: locations are not connected in the transportation network")).
Proof.
  intros url first h1 retried second h2 Hmode Hdirect Hunits Hmarshal Hpost Hreply.
  subst url first h1 retried second h2.
  assert (Hmode0 : RouteRequest.Mode req0 = ModeTransit).
  { revert Hunits. unfold validateUnits.
    destruct (RouteRequest.Units req =? "")%string;
      [ | destruct (negb _); [ discriminate | ] ];
      intros H; inversion H; subst; exact Hmode. }
  split; [ unfold buildValhallaRequest; rewrite Hmode0; reflexivity | ].
  split; [ reflexivity | ].
  (* the first activation hands the request over *)
  pose proof (routeActivation_direct env h req req0 Hdirect Hunits Hmarshal) as Hfirst.
  cbv zeta in Hfirst.
  rewrite Hpost, (onValhallaReply_notConnected _ _ _ Hreply), Hmode0 in Hfirst.
  simpl in Hfirst.
  (* the second one returns *)
  set (h1 := (h ++ [Post _ _])%list) in *.
  assert (Hmarshal' :
            marshalError (valhallaRequest.Locations
                            (buildValhallaRequest (Env.now env h1) (withMode req0 ModeAuto)))
            = None).
  { rewrite (buildValhallaRequest_Locations _ (Env.now env h) _ _). exact Hmarshal. }
  pose proof (routeActivation_direct env h1 (withMode req0 ModeAuto) _ eq_refl
                (validateUnits_withMode _ _ _ Hunits) Hmarshal') as Hsecond.
  cbv zeta in Hsecond.
  destruct (routeActivation_final env h1 (withMode req0 ModeAuto)) as (out & h' & Hret);
    [ discriminate | ].
  assert (Hh' : h' = (h1 ++ [Post (NavConfig.ValhallaURL (Env.navConfig env))
                               (buildValhallaRequest (Env.now env h1)
                                  (withMode req0 ModeAuto))])%list).
  { rewrite Hsecond in Hret.
    destruct (Env.httpPost env h1 _ _) as [resp'|err].
    - apply onValhallaReply_history in Hret. exact Hret.
    - inversion Hret; reflexivity. }
  subst h'.
  exists out. split; [ | split ].
  - rewrite route_unfold, Hfirst, route_unfold, Hret. reflexivity.
  - exact Hret.
  - intros resp' Hpost' Hreply'.
    rewrite Hsecond, Hpost', (onValhallaReply_notConnected _ _ _ Hreply') in Hret.
    inversion Hret; reflexivity.
Qed.

Lemma route_falls_back_once_witness :
  exists first second,
    route (Sample.world Sample.directOnly Sample.notConnected Sample.noPlan) []
      Sample.transitRequest
    = (Some (Err "no route found: locations are not connected in the transportation network"),
       [Post "http://valhalla.test/route" first; Post "http://valhalla.test/route" second])
    /\ valhallaRequest.Costing first = "transit"
    /\ valhallaRequest.Costing second = "auto".
Proof.
  pose (env := Sample.world Sample.directOnly Sample.notConnected Sample.noPlan).
  assert (Hreply : notConnectedReply Sample.notConnected).
  { split; [ discriminate | split; eexists; [ | split ]; reflexivity ]. }
  destruct (route_falls_back_once env [] Sample.transitRequest
              (withUnits Sample.transitRequest DefaultUnit) Sample.notConnected
              eq_refl eq_refl eq_refl eq_refl eq_refl Hreply)
    as (_ & _ & out & Hroute & _ & Hagain).
  rewrite (Hagain Sample.notConnected eq_refl Hreply) in Hroute.
  do 2 eexists. split; [ exact Hroute | split; reflexivity ].
Defined.

(** ** Where a routed response comes from *)

Lemma routeTransitUS_Ok env h req r h' :
  routeTransitUS env h req = (Some (Ok r), h') ->
  exists itinerary, fromTransitland env h h' req r itinerary.
Proof.
  unfold routeTransitUS.
  destruct (_ || _); [ discriminate | ].
  destruct (Env.httpGet env h _ _) as [resp|err] eqn:Hget; [ | discriminate ].
  destruct (transitlandReply.Body resp) as [body|err]; [ | discriminate ].
  destruct (transitlandReply.StatusCode resp =? StatusOK) eqn:Hs; simpl; [ | discriminate ].
  destruct (transitlandReply.Decoded resp) as [tResp|err] eqn:Hd; [ | discriminate ].
  destruct (transitlandResponse.Itineraries tResp) as [|itinerary others] eqn:Hi;
    [ discriminate | ].
  destruct (itineraryResponse req itinerary) as [r0|] eqn:Hr; simpl; [ | discriminate ].
  intros H; inversion H; subst.
  exists itinerary. unfold fromTransitland.
  do 5 eexists. apply Z.eqb_eq in Hs. repeat split; eassumption.
Qed.

Lemma onValhallaReply_Ok req resp h r h' :
  onValhallaReply req resp h = Return (Some (Ok r)) h' ->
  h' = h /\ valhallaReply.StatusCode resp = StatusOK
  /\ exists vResp, valhallaReply.Decoded resp = Ok vResp
                   /\ valhallaRouteResponse req vResp = Some r.
Proof.
  unfold onValhallaReply.
  destruct (valhallaReply.StatusCode resp =? StatusOK) eqn:Hs; simpl.
  - destruct (valhallaReply.Decoded resp) as [vResp|err]; [ | discriminate ].
    destruct (valhallaRouteResponse req vResp) as [r0|] eqn:Hr; simpl; [ | discriminate ].
    intros H; inversion H; subst. apply Z.eqb_eq in Hs. eauto.
  - repeat match goal with
           | |- context [match ?x with _ => _ end] => destruct x
           end; discriminate.
Qed.

Lemma routeActivation_Ok env h req r h' :
  routeActivation env h req = Return (Some (Ok r)) h' ->
  (exists vResp, fromValhalla env h' r vResp)
  \/ (usesItinerary (Env.navConfig env) req = true
      /\ exists itinerary, fromTransitland env h h' req r itinerary).
Proof.
  unfold routeActivation.
  destruct (usesItinerary (Env.navConfig env) req).
  - destruct (routeTransitUS env h req) as [out h1] eqn:Ht.
    intros H; inversion H; subst.
    right. split; [ reflexivity | ]. eapply routeTransitUS_Ok; eassumption.
  - destruct (validateUnits req) as [req0|err]; [ | discriminate ].
    destruct (marshalError _); [ discriminate | ].
    destruct (Env.httpPost env h _ _) as [resp|err] eqn:Hpost; [ | discriminate ].
    intros H. apply onValhallaReply_Ok in H.
    destruct H as (-> & Hs & vResp & Hd & Hr).
    left. exists vResp. unfold fromValhalla. do 4 eexists. repeat split; eassumption.
Qed.

Lemma route_Ok env h req :
  forall r h', route env h req = (Some (Ok r), h') ->
  (exists vResp, fromValhalla env h' r vResp)
  \/ (usesItinerary (Env.navConfig env) req = true
      /\ exists itinerary, fromTransitland env h h' req r itinerary).
Proof.
  funelim (route env h req); intros r h'' Hroute.
  - inversion Hroute; subst.
    match goal with
    | E : routeActivation _ _ _ = _ |- _ => exact (routeActivation_Ok _ _ _ _ _ E)
    end.
  - match goal with
    | IH : forall r h', route _ _ _ = _ -> _ |- _ => apply IH in Hroute
    end.
    match goal with
    | E : routeActivation _ _ _ = _ |- _ =>
        destruct (routeActivation_Reroute _ _ _ _ _ E) as [_ Hauto]
    end.
    destruct Hroute as [Hv | [Hi _]]; [ left; exact Hv | ].
    unfold usesItinerary in Hi. rewrite Hauto in Hi. discriminate.
Qed.

(** ** Step numbering *)

Lemma maneuverSteps_numbers req k maneuvers :
  map RouteStep.Number (maneuverSteps req (Z.of_nat k) maneuvers)
  = map Z.of_nat (seq (S k) (List.length maneuvers))
  /\ List.length (maneuverSteps req (Z.of_nat k) maneuvers) = List.length maneuvers.
Proof.
  revert k. induction maneuvers as [|m rest IH]; intros k; simpl.
  - split; reflexivity.
  - replace (Z.of_nat k + 1) with (Z.of_nat (S k)) by lia.
    destruct (IH (S k)) as [IHn IHl]. rewrite IHn, IHl. split; reflexivity.
Qed.

Lemma processLegs_numbers req k legs steps points :
  processLegs req (Z.of_nat k) legs = Some (steps, points) ->
  map RouteStep.Number steps = map Z.of_nat (seq (S k) (List.length legs))
  /\ List.length steps = List.length legs.
Proof.
  revert k steps points. induction legs as [|leg rest IH]; intros k steps points; simpl.
  - intros H; inversion H; subst. split; reflexivity.
  - destruct (legPoints leg) as [pts|]; [ | discriminate ].
    replace (Z.of_nat k + 1) with (Z.of_nat (S k)) by lia.
    destruct (processLegs req (Z.of_nat (S k)) rest) as [[steps' points']|] eqn:E;
      [ | discriminate ].
    intros H; inversion H; subst.
    destruct (IH (S k) _ _ E) as [IHn IHl]. simpl.
    unfold legStep at 1. destruct (legDescription req leg). simpl.
    replace (Z.of_nat k + 1) with (Z.of_nat (S k)) by lia.
    rewrite IHn, IHl. split; reflexivity.
Qed.

Lemma valhallaRouteResponse_numbers req vResp r :
  valhallaRouteResponse req vResp = Some r ->
  map RouteStep.Number (RouteResponse.Steps r) = oneTo (List.length (RouteResponse.Steps r))
  /\ List.length (RouteResponse.Steps r) = List.length (firstLegManeuvers vResp).
Proof.
  unfold valhallaRouteResponse, firstLegManeuvers, oneTo.
  destruct (valhallaResponse.Legs vResp) as [|leg legs].
  - intros H; inversion H; subst. split; reflexivity.
  - destruct (decodePolyline _); [ | discriminate ].
    intros H; inversion H; subst. simpl.
    destruct (maneuverSteps_numbers req 0 (valhallaLeg.Maneuvers leg)) as [Hn Hl].
    simpl in Hn, Hl. rewrite Hl. split; [ exact Hn | reflexivity ].
Qed.

Lemma itineraryResponse_numbers req itinerary r :
  itineraryResponse req itinerary = Some r ->
  map RouteStep.Number (RouteResponse.Steps r) = oneTo (List.length (RouteResponse.Steps r))
  /\ List.length (RouteResponse.Steps r) = List.length (Itinerary.Legs itinerary).
Proof.
  unfold itineraryResponse, oneTo.
  destruct (processLegs req 0 (Itinerary.Legs itinerary)) as [[steps points]|] eqn:E;
    [ | discriminate ].
  intros H; inversion H; subst. simpl.
  destruct (processLegs_numbers req 0 _ _ _ E) as [Hn Hl].
  rewrite Hl. split; [ exact Hn | reflexivity ].
Qed.

(** C4, as the code has it. The step numbers of every routed response are
    1, 2, ..., N in order, where N is the number of maneuvers of the first
    leg of the trip the direct-routing backend returned, or the number of
    legs of the first itinerary the itinerary backend returned. *)
Theorem route_steps_numbered (env : Env.t) (h : History) (req : RouteRequest.t)
  (r : RouteResponse.t) (h' : History) :
  route env h req = (Some (Ok r), h') ->
  map RouteStep.Number (RouteResponse.Steps r) = oneTo (List.length (RouteResponse.Steps r))
  /\ ((exists vResp,
         fromValhalla env h' r vResp
         /\ List.length (RouteResponse.Steps r) = List.length (firstLegManeuvers vResp))
      \/ (exists itinerary,
            fromTransitland env h h' req r itinerary
            /\ List.length (RouteResponse.Steps r) = List.length (Itinerary.Legs itinerary))).
Proof.
  intros Hroute. apply route_Ok in Hroute.
  destruct Hroute as [[vResp Hv] | [_ [itinerary Hi]]].
  - pose proof Hv as (h0 & req' & vReq & resp & _ & _ & _ & _ & Hr).
    apply valhallaRouteResponse_numbers in Hr. destruct Hr as [Hn Hl].
    split; [ exact Hn | left; eauto ].
  - pose proof Hi as (url & query & resp & tResp & others & _ & _ & _ & _ & _ & Hr).
    apply itineraryResponse_numbers in Hr. destruct Hr as [Hn Hl].
    split; [ exact Hn | right; eauto ].
Qed.

Lemma route_steps_numbered_witness :
  exists r h',
    route (Sample.world Sample.directOnly (Sample.served Sample.oneLeg) Sample.noPlan) []
      Sample.autoRequest = (Some (Ok r), h')
    /\ map RouteStep.Number (RouteResponse.Steps r) = [1; 2; 3].
Proof.
  pose (env := Sample.world Sample.directOnly (Sample.served Sample.oneLeg) Sample.noPlan).
  destruct (route env [] Sample.autoRequest) as [out h'] eqn:E.
  assert (Hout : exists r, out = Some (Ok r) /\ List.length (RouteResponse.Steps r) = 3%nat).
  { pose proof E as E'. vm_compute in E'. inversion E'; subst.
    eexists. split; reflexivity. }
  destruct Hout as (r & -> & Hl).
  exists r, h'. split; [ exact E | ].
  destruct (route_steps_numbered env [] Sample.autoRequest r h' E) as [Hn _].
  rewrite Hn, Hl. reflexivity.
Defined.

(** C4, as the specification words it, fails: of a trip of two legs with
    three maneuvers in all, only the maneuver of the first leg becomes a
    step. *)
Lemma route_numbers_first_leg_only :
  exists r h',
    route (Sample.world Sample.directOnly (Sample.served Sample.twoLegs) Sample.noPlan) []
      Sample.autoRequest = (Some (Ok r), h')
    /\ map RouteStep.Number (RouteResponse.Steps r) = [1]
    /\ List.length (allManeuvers Sample.twoLegs) = 3%nat.
Proof.
  do 2 eexists. split; [ vm_compute; reflexivity | split; reflexivity ].
Qed.

(** ** The path of a routed response *)

Lemma legPoints_farApart leg segment : legPoints leg = Some segment -> farApart segment.
Proof.
  unfold legPoints. destruct (transitLeg.Points leg =? "")%string.
  - intros H; inversion H; subst. apply farApart_nil.
  - intros H. apply decodePolyline_retained in H. apply H.
Qed.

Lemma processLegs_segments req i legs steps points :
  processLegs req i legs = Some (steps, points) ->
  exists segments,
    Forall2 (fun leg segment => legPoints leg = Some segment) legs segments
    /\ points = List.concat segments.
Proof.
  revert i steps points. induction legs as [|leg rest IH]; intros i steps points; simpl.
  - intros H; inversion H; subst. exists []. split; [ constructor | reflexivity ].
  - destruct (legPoints leg) as [segment|] eqn:Hleg; [ | discriminate ].
    destruct (processLegs req (i + 1) rest) as [[steps' points']|] eqn:E; [ | discriminate ].
    intros H; inversion H; subst.
    destruct (IH _ _ _ E) as (segments & Hall & ->).
    exists (segment :: segments). split; [ constructor; assumption | reflexivity ].
Qed.

Lemma valhallaRouteResponse_path req vResp r :
  valhallaRouteResponse req vResp = Some r ->
  farApart (Path.Points (RouteResponse.Path r)).
Proof.
  unfold valhallaRouteResponse.
  destruct (valhallaResponse.Legs vResp) as [|leg legs].
  - intros H; inversion H; subst. apply farApart_nil.
  - destruct (decodePolyline (valhallaLeg.Shape leg)) as [points|] eqn:E; [ | discriminate ].
    intros H; inversion H; subst. simpl.
    apply decodePolyline_retained in E. apply E.
Qed.

(** C5, as the code has it. The path of a response of the direct-routing
    adapter satisfies the dedup invariant: any two of its points, so also
    any two consecutive ones, are more than 2 apart. The path of a response
    of the itinerary adapter is the concatenation of the paths decoded from
    the legs, one segment per leg, and the invariant holds inside every
    segment. *)
Theorem route_path_dedup (env : Env.t) (h : History) (req : RouteRequest.t)
  (r : RouteResponse.t) (h' : History) :
  route env h req = (Some (Ok r), h') ->
  (exists vResp,
     fromValhalla env h' r vResp /\ farApart (Path.Points (RouteResponse.Path r)))
  \/ (exists itinerary segments,
        fromTransitland env h h' req r itinerary
        /\ Forall2 (fun leg segment => legPoints leg = Some segment)
             (Itinerary.Legs itinerary) segments
        /\ Path.Points (RouteResponse.Path r) = List.concat segments
        /\ Forall farApart segments).
Proof.
  intros Hroute. apply route_Ok in Hroute.
  destruct Hroute as [[vResp Hv] | [_ [itinerary Hi]]].
  - left. exists vResp. split; [ exact Hv | ].
    destruct Hv as (h0 & req' & vReq & resp & _ & _ & _ & _ & Hr).
    eapply valhallaRouteResponse_path; eassumption.
  - right. exists itinerary.
    pose proof Hi as (url & query & resp & tResp & others & _ & _ & _ & _ & _ & Hr).
    unfold itineraryResponse in Hr.
    destruct (processLegs req 0 (Itinerary.Legs itinerary)) as [[steps points]|] eqn:E;
      [ | discriminate ].
    inversion Hr; subst; simpl.
    destruct (processLegs_segments _ _ _ _ _ E) as (segments & Hall & ->).
    exists segments. repeat split; try assumption.
    clear - Hall. induction Hall; constructor; eauto using legPoints_farApart.
Qed.

Lemma route_path_dedup_witness :
  exists r h',
    route (Sample.world Sample.withItineraries (Sample.served Sample.oneLeg)
             (Sample.planned Sample.thereAndBack)) [] Sample.usTransitRequest
    = (Some (Ok r), h')
    /\ exists segments,
         Path.Points (RouteResponse.Path r) = List.concat segments
         /\ Forall farApart segments.
Proof.
  pose (env := Sample.world Sample.withItineraries (Sample.served Sample.oneLeg)
                 (Sample.planned Sample.thereAndBack)).
  destruct (route env [] Sample.usTransitRequest) as [out h'] eqn:E.
  assert (Hout : exists r, out = Some (Ok r)).
  { pose proof E as E'. vm_compute in E'. inversion E'; subst. eexists; reflexivity. }
  destruct Hout as (r & ->).
  exists r, h'. split; [ exact E | ].
  destruct (route_path_dedup env [] Sample.usTransitRequest r h' E)
    as [(vResp & _ & Hfar) | (itinerary & segments & _ & _ & Hpath & Hfar)].
  - exists [Path.Points (RouteResponse.Path r)].
    split; [ simpl; rewrite app_nil_r; reflexivity | constructor; [ exact Hfar | constructor ] ].
  - exists segments. split; assumption.
Defined.

(** C5, as the specification words it, fails for the itinerary adapter:
    where one leg ends and the next begins, two consecutive points of the
    path can coincide. *)
Lemma route_path_repeats_across_legs :
  exists r h',
    route (Sample.world Sample.withItineraries (Sample.served Sample.oneLeg)
             (Sample.planned Sample.thereAndBack)) [] Sample.usTransitRequest
    = (Some (Ok r), h')
    /\ Path.Points (RouteResponse.Path r)
       = [(100, 0); (88, 46); (0, 100); (0, 100); (39, 53); (100, 0)]
    /\ nth_error (Path.Points (RouteResponse.Path r)) 2 = Some (0, 100)
    /\ nth_error (Path.Points (RouteResponse.Path r)) 3 = Some (0, 100)
    /\ distance1 (0, 100) (0, 100) <= 2.
Proof.
  do 2 eexists. split; [ vm_compute; reflexivity | ].
  repeat split; simpl; try reflexivity. unfold distance1; simpl; lia.
Qed.

(** ** The summary of an itinerary response *)

Lemma route_itinerary env h req :
  usesItinerary (Env.navConfig env) req = true ->
  route env h req = routeTransitUS env h req.
Proof.
  intros Huses. rewrite route_unfold. unfold routeActivation. rewrite Huses.
  destruct (routeTransitUS env h req); reflexivity.
Qed.

(** C10. The response the itinerary adapter assembles takes its distance
    from the walkDistance of the first itinerary alone, converted to the
    requested unit (divided by 1609.344 for miles, by 1000 otherwise), and
    its duration from the duration of that itinerary; whatever legs the
    itinerary has, and whatever their distances, the summary distance is the
    same. *)
Theorem route_itinerary_summary (env : Env.t) (h : History) (req : RouteRequest.t)
  (r : RouteResponse.t) (h' : History) :
  usesItinerary (Env.navConfig env) req = true ->
  route env h req = (Some (Ok r), h') ->
  exists itinerary,
    fromTransitland env h h' req r itinerary
    /\ RouteResponse.Distance r
       = convertDistance (Itinerary.WalkDistance itinerary) (RouteRequest.Units req)
    /\ RouteResponse.Distance r
       = (if (RouteRequest.Units req =? UnitMiles)%string
          then Itinerary.WalkDistance itinerary / 1609.344
          else Itinerary.WalkDistance itinerary / 1000)%float
    /\ RouteResponse.Duration r = Itinerary.Duration itinerary
    /\ (forall legs r', itineraryResponse req (withLegs itinerary legs) = Some r' ->
          RouteResponse.Distance r' = RouteResponse.Distance r).
Proof.
  intros Huses Hroute. rewrite (route_itinerary _ _ _ Huses) in Hroute.
  apply routeTransitUS_Ok in Hroute. destruct Hroute as [itinerary Hi].
  exists itinerary. split; [ exact Hi | ].
  destruct Hi as (url & query & resp & tResp & others & _ & _ & _ & _ & _ & Hr).
  unfold itineraryResponse in Hr.
  destruct (processLegs req 0 (Itinerary.Legs itinerary)) as [[steps points]|];
    [ | discriminate ].
  inversion Hr; subst; simpl.
  repeat split.
  intros legs r'. unfold itineraryResponse. simpl.
  destruct (processLegs req 0 legs) as [[steps' points']|]; [ | discriminate ].
  intros H; inversion H; subst. reflexivity.
Qed.

Lemma route_itinerary_summary_witness :
  exists r h',
    route (Sample.world Sample.withItineraries (Sample.served Sample.oneLeg)
             (Sample.planned Sample.thereAndBack)) [] Sample.usTransitRequest
    = (Some (Ok r), h')
    /\ RouteResponse.Distance r = (450 / 1609.344)%float
    /\ RouteResponse.Duration r = 1800%float.
Proof.
  pose (env := Sample.world Sample.withItineraries (Sample.served Sample.oneLeg)
                 (Sample.planned Sample.thereAndBack)).
  destruct (route env [] Sample.usTransitRequest) as [out h'] eqn:E.
  assert (Hout : exists r, out = Some (Ok r)).
  { pose proof E as E'. vm_compute in E'. inversion E'; subst. eexists; reflexivity. }
  destruct Hout as (r & ->).
  exists r, h'. split; [ exact E | ].
  destruct (route_itinerary_summary env [] Sample.usTransitRequest r h' eq_refl E)
    as (itinerary & Hfrom & _ & Hd & Ht & _).
  destruct Hfrom as (url & query & resp & tResp & others & _ & Hget & _ & Hdec & Hits & _).
  inversion Hget; subst resp. inversion Hdec; subst tResp. inversion Hits; subst.
  split; [ exact Hd | exact Ht ].
Defined.

(** ** The plain-text grammar *)






(** C9, as the code has it. In miles a distance below 0.1 is rendered in
    feet (the distance times 5280, no decimals, "ft") and any other with one
    decimal and "mi"; in kilometers a distance below 1 is rendered in meters
    (the distance times 1000, no decimals, "m") and any other with one
    decimal and "km". *)
Theorem formatDistance_thresholds (distance : float) :
  (PrimFloat.ltb distance 0.1 = true ->
     formatDistance distance UnitMiles = fmt_f 0 (distance * 5280)%float ++ "ft")
  /\ (PrimFloat.ltb distance 0.1 = false ->
        formatDistance distance UnitMiles = fmt_f 1 distance ++ "mi")
  /\ (PrimFloat.ltb distance 1 = true ->
        formatDistance distance UnitKilometers = fmt_f 0 (distance * 1000)%float ++ "m")
  /\ (PrimFloat.ltb distance 1 = false ->
        formatDistance distance UnitKilometers = fmt_f 1 distance ++ "km").
Proof.
  unfold formatDistance. simpl.
  repeat split; intros H; rewrite H; reflexivity.
Qed.

Lemma formatDistance_thresholds_witness :
  formatDistance 0.05 UnitMiles = "264ft"
  /\ formatDistance 1.5 UnitMiles = "1.5mi"
  /\ formatDistance 0.45 UnitKilometers = "450m"
  /\ formatDistance 3.2 UnitKilometers = "3.2km".
Proof.
  destruct (formatDistance_thresholds 0.05) as (H1 & _).
  destruct (formatDistance_thresholds 1.5) as (_ & H2 & _).
  destruct (formatDistance_thresholds 0.45) as (_ & _ & H3 & _).
  destruct (formatDistance_thresholds 3.2) as (_ & _ & _ & H4).
  rewrite (H1 eq_refl), (H2 eq_refl), (H3 eq_refl), (H4 eq_refl).
  repeat split; vm_compute; reflexivity.
Defined.

(** C9, as the specification words it, fails: half a mile is below one
    unit, and it is rendered in miles, not in feet. *)
Lemma formatDistance_half_mile :
  PrimFloat.leb 0 0.5 = true /\ PrimFloat.ltb 0.5 1 = true
  /\ formatDistance 0.5 UnitMiles = "0.5mi"
  /\ formatDistance 0.5 UnitMiles <> fmt_f 0 (0.5 * 5280)%float ++ "ft".
Proof.
  repeat split; try (vm_compute; reflexivity).
  vm_compute. discriminate.
Qed.




(** ** The handlers *)



(** The messages the POST branch answers with before it routes: a body that
    cannot be read or has fewer than five lines, or coordinates that do not
    parse. *)
Lemma parsePost_messages env r message :
  parsePost env r = Err message ->
  (exists err, Request.Body r = Err err /\ message = "failed to read request body")
  \/ message = "request must contain at least 5 lines"
  \/ message = "invalid 'from' coordinates"
  \/ message = "invalid 'to' coordinates".
Proof.
  unfold parsePost.
  destruct (Request.Body r) as [body|err]; simpl; [ | intros H; inversion H; eauto ].
  destruct (_ <? 5)%nat; [ intros H; inversion H; auto | ].
  destruct (parseLatLng env (cleanLine _ 3)); simpl; [ | intros H; inversion H; auto ].
  destruct (parseLatLng env (cleanLine _ 4)); simpl; [ discriminate | ].
  intros H; inversion H; auto.
Qed.











(** ** Maneuver codes outside the table *)

(** A maneuver code outside the table gets the empty icon. *)
Theorem getStepIcon_unknown (maneuverType : Z) (instruction : string) :
  maneuverType <= 0 \/ 43 < maneuverType ->
  getStepIcon maneuverType instruction "" = "".
Proof.
  intros Hcode. unfold getStepIcon. simpl.
  repeat match goal with
         | |- context [maneuverType =? ?k] =>
             let E := fresh "E" in
             destruct (maneuverType =? k) eqn:E; [ apply Z.eqb_eq in E; lia | ]
         end.
  reflexivity.
Qed.

Lemma getStepIcon_unknown_witness : getStepIcon 99 "Keep going" "" = "".
Proof. apply getStepIcon_unknown. right. lia. Defined.

(** ** The model on the examples of the specification *)

Example fmt_f_samples :
  map (fmt_f 1) [3.25%float; 0.05%float; 12%float; (-0.01)%float; 0.5%float]
  = ["3.2"; "0.1"; "12.0"; "-0.0"; "0.5"]
  /\ map (fmt_f 0) [449.6%float; 2.5%float; 0.4%float] = ["450"; "2"; "0"].
Proof. split; vm_compute; reflexivity. Qed.

Example strings_samples :
  Split "a,b,,c" "," = ["a"; "b"; ""; "c"]
  /\ TrimSpace "  x y  " = "x y"
  /\ TrimSuffix "abc." "." = "abc"
  /\ ToLower "WaLk1" = "walk1"
  /\ abbreviateInstruction "Turn right onto North Main Street." = "Turn right on N Main St"
  /\ abbreviateInstruction "You have arrived at your destination." = "Arrive at destination".
Proof. repeat split; vm_compute; reflexivity. Qed.

Example float_samples :
  map int [Round 2.5%float; Round (-2.5)%float; Round 0.49%float; 99.9%float; nan]
  = [3; -3; 0; 99; minInt64]
  /\ float64 (-3850000) = (-3850000)%float.
Proof. split; vm_compute; reflexivity. Qed.

Example formatDuration_samples :
  map formatDuration [3900%float; 720%float; 7200%float; 59%float]
  = ["1hr 5min"; "12min"; "2hr"; "0min"].
Proof. vm_compute. reflexivity. Qed.

Example decodePolyline_samples :
  decodePolyline "" = Some []
  /\ decodePolyline "??" = Some [(0, 0)]
  /\ decodePolyline "??????" = Some [(0, 0)]
  /\ decodePolyline "_p~iF" = None
  /\ decodePolyline Sample.curveBack = Some [(0, 100); (39, 53); (100, 0)].
Proof. repeat split; vm_compute; reflexivity. Qed.

Example getStepIcon_samples :
  getStepIcon 15 "" "BUS" = "Bus"
  /\ getStepIcon 15 "" "" = "Left"
  /\ getStepIcon 99 "" "" = "".
Proof. repeat split; vm_compute; reflexivity. Qed.

(** * Further properties of the code *)

(** ** The calls the router makes *)

Lemma onValhallaReply_Reroute_reply req resp h req' h' :
  onValhallaReply req resp h = Reroute req' h' -> notConnectedReply resp.
Proof.
  unfold onValhallaReply, notConnectedReply.
  destruct (valhallaReply.StatusCode resp =? StatusOK) eqn:Hs; simpl;
    [ destruct (valhallaReply.Decoded resp); discriminate | ].
  destruct (valhallaReply.Body resp) as [body|]; [ | discriminate ].
  destruct (valhallaReply.Error resp) as [e|]; [ | discriminate ].
  destruct (valhallaError.ErrorCode e =? 170) eqn:Hc; [ | discriminate ].
  intros _. apply Z.eqb_neq in Hs. apply Z.eqb_eq in Hc.
  split; [ exact Hs | split; eauto ].
Qed.

Lemma validateUnits_Ok req req0 :
  validateUnits req = Ok req0 ->
  RouteRequest.Mode req0 = RouteRequest.Mode req
  /\ fromLocation req0 = fromLocation req
  /\ toLocation req0 = toLocation req
  /\ DistanceUnit_IsValid (RouteRequest.Units req0) = true
  /\ (RouteRequest.Units req0 = RouteRequest.Units req
      \/ (RouteRequest.Units req = "" /\ RouteRequest.Units req0 = DefaultUnit)).
Proof.
  unfold validateUnits.
  destruct (RouteRequest.Units req =? "")%string eqn:E.
  - intros H; inversion H; subst. apply String.eqb_eq in E.
    repeat split; auto.
  - destruct (DistanceUnit_IsValid (RouteRequest.Units req)) eqn:V; simpl; [ | discriminate ].
    intros H; inversion H; subst. repeat split; auto.
Qed.

Lemma validateUnits_Err req err :
  validateUnits req = Err err -> err = "invalid units: must be one of: km, mi".
Proof.
  unfold validateUnits.
  destruct (_ =? "")%string; [ discriminate | ].
  destruct (negb _); [ | discriminate ].
  intros H; inversion H; reflexivity.
Qed.

(** What an activation that hands the request over has done. *)
Lemma routeActivation_Reroute_call env h req req' h' :
  routeActivation env h req = Reroute req' h' ->
  exists req0 resp,
    usesItinerary (Env.navConfig env) req = false
    /\ validateUnits req = Ok req0
    /\ RouteRequest.Mode req = ModeTransit
    /\ marshalError (valhallaRequest.Locations
                       (buildValhallaRequest (Env.now env h) req0)) = None
    /\ req' = withMode req0 ModeAuto
    /\ h' = (h ++ [Post (NavConfig.ValhallaURL (Env.navConfig env))
                     (buildValhallaRequest (Env.now env h) req0)])%list
    /\ Env.httpPost env h (NavConfig.ValhallaURL (Env.navConfig env))
         (buildValhallaRequest (Env.now env h) req0) = Ok resp
    /\ notConnectedReply resp.
Proof.
  unfold routeActivation.
  destruct (usesItinerary _ _) eqn:Huses.
  - destruct (routeTransitUS env h req); discriminate.
  - destruct (validateUnits req) as [req0|err] eqn:Hunits; [ | discriminate ].
    destruct (marshalError _) eqn:Hmarshal; [ discriminate | ].
    destruct (Env.httpPost _ _ _ _) as [resp|err] eqn:Hpost; [ | discriminate ].
    intros H. pose proof (onValhallaReply_Reroute_reply _ _ _ _ _ H) as Hreply.
    apply onValhallaReply_Reroute in H. destruct H as (Hmode & -> & ->).
    destruct (validateUnits_Ok _ _ Hunits) as (Hm & _).
    exists req0, resp. rewrite <- Hm.
    split; [ reflexivity | ]. split; [ reflexivity | ]. split; [ exact Hmode | ].
    split; [ exact Hmarshal | ]. split; [ reflexivity | ]. split; [ reflexivity | ].
    split; [ exact Hpost | exact Hreply ].
Qed.

Lemma routeTransitUS_calls env h req out h' :
  routeTransitUS env h req = (out, h') ->
  (h' = h /\ out = Some (Err "transitland configuration not complete"))
  \/ exists query,
       h' = (h ++ [Get (NavConfig.TransitlandURL (Env.navConfig env) ++ "/routing/otp/plan")
                     query])%list.
Proof.
  unfold routeTransitUS.
  destruct (_ || _).
  - intros H; inversion H; subst. left. split; reflexivity.
  - intros H. right. exists (planQuery env h req).
    repeat match type of H with
           | context [match ?x with _ => _ end] => destruct x
           | context [if ?x then _ else _] => destruct x
           end; inversion H; reflexivity.
Qed.

(** What an activation that returns has done. *)
Lemma routeActivation_Return_calls env h req out h' :
  routeActivation env h req = Return out h' ->
  (h' = h /\ exists msg, out = Some (Err msg) /\ rejectedBeforeCalling msg)
  \/ (usesItinerary (Env.navConfig env) req = true
      /\ exists query,
           h' = (h ++ [Get (NavConfig.TransitlandURL (Env.navConfig env)
                            ++ "/routing/otp/plan") query])%list)
  \/ (usesItinerary (Env.navConfig env) req = false
      /\ exists vReq,
           h' = (h ++ [Post (NavConfig.ValhallaURL (Env.navConfig env)) vReq])%list).
Proof.
  unfold routeActivation, rejectedBeforeCalling.
  destruct (usesItinerary _ _) eqn:Huses.
  - destruct (routeTransitUS env h req) as [out1 h1] eqn:Ht.
    intros H; inversion H; subst.
    destruct (routeTransitUS_calls _ _ _ _ _ Ht) as [[-> ->] | [query ->]].
    + left. split; [ reflexivity | ]. eexists. split; [ reflexivity | auto ].
    + right. left. eauto.
  - destruct (validateUnits req) as [req0|err] eqn:Hunits.
    + destruct (marshalError _) as [err|] eqn:Hmarshal.
      * intros H; inversion H; subst.
        left. split; [ reflexivity | ]. eexists. split; [ reflexivity | ].
        right. right. exists err. reflexivity.
      * destruct (Env.httpPost _ _ _ _) as [resp|err] eqn:Hpost.
        -- intros H. apply onValhallaReply_history in H. subst h'.
           right. right. eauto.
        -- intros H; inversion H; subst. right. right. eauto.
    + intros H; inversion H; subst. apply validateUnits_Err in Hunits. subst err.
      left. split; [ reflexivity | ]. eexists. split; [ reflexivity | auto ].
Qed.

(** The activation of a request handed over by the fallback posts it and
    returns. *)
Lemma routeActivation_rerouted env h h1 req req0 :
  validateUnits req = Ok req0 ->
  marshalError (valhallaRequest.Locations (buildValhallaRequest (Env.now env h) req0)) = None ->
  exists out,
    routeActivation env h1 (withMode req0 ModeAuto)
    = Return out (h1 ++ [Post (NavConfig.ValhallaURL (Env.navConfig env))
                           (buildValhallaRequest (Env.now env h1)
                              (withMode req0 ModeAuto))])%list.
Proof.
  intros Hunits Hmarshal.
  assert (Hmarshal' :
            marshalError (valhallaRequest.Locations
                            (buildValhallaRequest (Env.now env h1) (withMode req0 ModeAuto)))
            = None).
  { rewrite (buildValhallaRequest_Locations _ (Env.now env h) _ _). exact Hmarshal. }
  pose proof (routeActivation_direct env h1 (withMode req0 ModeAuto) _ eq_refl
                (validateUnits_withMode _ _ _ Hunits) Hmarshal') as Hsecond.
  cbv zeta in Hsecond.
  destruct (routeActivation_final env h1 (withMode req0 ModeAuto)) as (out & h' & Hret);
    [ discriminate | ].
  exists out. rewrite Hret. f_equal.
  rewrite Hsecond in Hret.
  destruct (Env.httpPost env h1 _ _) as [resp'|err].
  - apply onValhallaReply_history in Hret. exact Hret.
  - inversion Hret; reflexivity.
Qed.

(** The calls a routing makes. It makes none, one or two. One call goes to
    the itinerary backend exactly when that adapter is selected, and to the
    direct-routing backend otherwise. Two calls are made only for a transit
    request whose first call was answered with the structured error 170, and
    the second call then asks for the auto costing. *)
Theorem route_calls (env : Env.t) (h : History) (req : RouteRequest.t)
  (out : option (result RouteResponse.t)) (h' : History) :
  route env h req = (out, h') ->
  h' = h
  \/ (usesItinerary (Env.navConfig env) req = true
      /\ exists query,
           h' = (h ++ [Get (NavConfig.TransitlandURL (Env.navConfig env)
                            ++ "/routing/otp/plan") query])%list)
  \/ (usesItinerary (Env.navConfig env) req = false
      /\ exists vReq,
           h' = (h ++ [Post (NavConfig.ValhallaURL (Env.navConfig env)) vReq])%list)
  \/ (usesItinerary (Env.navConfig env) req = false
      /\ RouteRequest.Mode req = ModeTransit
      /\ exists first second resp,
           h' = (h ++ [Post (NavConfig.ValhallaURL (Env.navConfig env)) first;
                       Post (NavConfig.ValhallaURL (Env.navConfig env)) second])%list
           /\ Env.httpPost env h (NavConfig.ValhallaURL (Env.navConfig env)) first = Ok resp
           /\ notConnectedReply resp
           /\ valhallaRequest.Costing first = "transit"
           /\ valhallaRequest.Costing second = "auto").
Proof.
  rewrite route_unfold.
  destruct (routeActivation env h req) as [out1 h1|req1 h1] eqn:Hact.
  - intros H; inversion H; subst.
    destruct (routeActivation_Return_calls _ _ _ _ _ Hact) as [[-> _] | [Hi | Hd]]; auto.
  - destruct (routeActivation_Reroute_call _ _ _ _ _ Hact)
      as (req0 & resp & Huses & Hunits & Hmode & Hmarshal & -> & -> & Hpost & Hreply).
    destruct (routeActivation_rerouted env h
                (h ++ [Post (NavConfig.ValhallaURL (Env.navConfig env))
                         (buildValhallaRequest (Env.now env h) req0)])%list
                req req0 Hunits Hmarshal) as [out2 Hsecond].
    rewrite route_unfold, Hsecond.
    intros H; inversion H; subst.
    right. right. right. split; [ exact Huses | split; [ exact Hmode | ] ].
    do 3 eexists. split; [ rewrite <- app_assoc; reflexivity | ].
    split; [ exact Hpost | split; [ exact Hreply | split ] ].
    + destruct (validateUnits_Ok _ _ Hunits) as (Hm & _).
      unfold buildValhallaRequest. rewrite Hm, Hmode. reflexivity.
    + reflexivity.
Qed.

Lemma route_calls_witness :
  exists query,
    snd (route (Sample.world Sample.withItineraries (Sample.served Sample.oneLeg)
                  (Sample.planned Sample.thereAndBack)) [] Sample.usTransitRequest)
    = [Get "http://transit.test/api/v2/routing/otp/plan" query].
Proof.
  pose (env := Sample.world Sample.withItineraries (Sample.served Sample.oneLeg)
                 (Sample.planned Sample.thereAndBack)).
  destruct (route env [] Sample.usTransitRequest) as [out h'] eqn:E.
  destruct (route_calls env [] Sample.usTransitRequest out h' E)
    as [-> | [[_ [query ->]] | [[Hd _] | [Hd _]]]].
  - vm_compute in E. discriminate E.
  - exists query.
    change (snd (route env [] Sample.usTransitRequest)
            = [Get "http://transit.test/api/v2/routing/otp/plan" query]).
    rewrite E. reflexivity.
  - discriminate Hd.
  - discriminate Hd.
Defined.

Lemma app_cons_ne {A : Type} (l l' : list A) (a : A) : (l ++ a :: l')%list <> l.
Proof.
  intros H. apply (f_equal (@List.length A)) in H.
  rewrite length_app in H. simpl in H. lia.
Qed.

(** A routing that calls no backend has returned one of three errors: the
    itinerary backend is not fully configured, the units are not valid, or a
    coordinate cannot be marshalled. In particular no response and no panic
    comes without a call. *)
Theorem route_without_call (env : Env.t) (h : History) (req : RouteRequest.t)
  (out : option (result RouteResponse.t)) :
  route env h req = (out, h) ->
  exists msg, out = Some (Err msg) /\ rejectedBeforeCalling msg.
Proof.
  rewrite route_unfold.
  destruct (routeActivation env h req) as [out1 h1|req1 h1] eqn:Hact.
  - intros H; inversion H; subst.
    destruct (routeActivation_Return_calls _ _ _ _ _ Hact)
      as [[_ Hmsg] | [[_ [query Hh]] | [_ [vReq Hh]]]].
    + exact Hmsg.
    + symmetry in Hh. apply app_cons_ne in Hh. contradiction.
    + symmetry in Hh. apply app_cons_ne in Hh. contradiction.
  - destruct (routeActivation_Reroute_call _ _ _ _ _ Hact)
      as (req0 & resp & Huses & Hunits & Hmode & Hmarshal & -> & -> & Hpost & Hreply).
    destruct (routeActivation_rerouted env h
                (h ++ [Post (NavConfig.ValhallaURL (Env.navConfig env))
                         (buildValhallaRequest (Env.now env h) req0)])%list
                req req0 Hunits Hmarshal) as [out2 Hsecond].
    rewrite route_unfold, Hsecond.
    intros H; inversion H as [[Hout Hh]].
    rewrite <- app_assoc in Hh. apply app_cons_ne in Hh. contradiction.
Qed.

Lemma route_without_call_witness :
  route (Sample.world Sample.directOnly (Sample.served Sample.oneLeg) Sample.noPlan) []
    (withUnits Sample.autoRequest "furlongs")
  = (Some (Err "invalid units: must be one of: km, mi"), []).
Proof.
  pose (env := Sample.world Sample.directOnly (Sample.served Sample.oneLeg) Sample.noPlan).
  assert (E : exists out, route env [] (withUnits Sample.autoRequest "furlongs") = (out, []))
    by (eexists; vm_compute; reflexivity).
  destruct E as [out E].
  destruct (route_without_call env [] _ out E) as (msg & -> & _).
  change (route env [] (withUnits Sample.autoRequest "furlongs")
          = (Some (Err "invalid units: must be one of: km, mi"), [])).
  rewrite E. vm_compute in E. inversion E. reflexivity.
Defined.

(** ** What a routed response carries over *)






(** The path of a routed response records the number of its points, and it
    is either the zero value (a trip without any leg, which also has no
    step) or a path on the 100 by 100 grid. *)
Theorem route_path_shape (env : Env.t) (h : History) (req : RouteRequest.t)
  (r : RouteResponse.t) (h' : History) :
  route env h req = (Some (Ok r), h') ->
  Path.Length (RouteResponse.Path r)
  = Z.of_nat (List.length (Path.Points (RouteResponse.Path r)))
  /\ ((RouteResponse.Path r = Path.zero /\ RouteResponse.Steps r = [])
      \/ (Path.Width (RouteResponse.Path r) = NormalizedGridSize
          /\ Path.Height (RouteResponse.Path r) = NormalizedGridSize)).
Proof.
  intros Hroute. apply route_Ok in Hroute.
  destruct Hroute as [[vResp Hv] | [_ [itinerary Hi]]].
  - destruct Hv as (h0 & req' & vReq & resp & _ & _ & _ & _ & Hr).
    unfold valhallaRouteResponse in Hr.
    destruct (valhallaResponse.Legs vResp) as [|leg legs].
    + inversion Hr; subst; simpl. split; [ reflexivity | left; split; reflexivity ].
    + destruct (decodePolyline _); [ | discriminate ].
      inversion Hr; subst; simpl. split; [ reflexivity | right; split; reflexivity ].
  - destruct Hi as (url & query & resp & tResp & others & _ & _ & _ & _ & _ & Hr).
    unfold itineraryResponse in Hr.
    destruct (processLegs _ _ _) as [[steps points]|]; [ | discriminate ].
    inversion Hr; subst; simpl. split; [ reflexivity | right; split; reflexivity ].
Qed.

Lemma route_path_shape_witness :
  exists r h',
    route (Sample.world Sample.directOnly (Sample.served Sample.oneLeg) Sample.noPlan) []
      Sample.autoRequest = (Some (Ok r), h')
    /\ Path.Length (RouteResponse.Path r)
       = Z.of_nat (List.length (Path.Points (RouteResponse.Path r))).
Proof.
  pose (env := Sample.world Sample.directOnly (Sample.served Sample.oneLeg) Sample.noPlan).
  destruct (route env [] Sample.autoRequest) as [out h'] eqn:E.
  assert (Hout : exists r, out = Some (Ok r)).
  { pose proof E as E'. vm_compute in E'. inversion E'; subst. eexists; reflexivity. }
  destruct Hout as (r & ->).
  exists r, h'. split; [ exact E | ].
  exact (proj1 (route_path_shape env [] Sample.autoRequest r h' E)).
Defined.

(** ** The icons of the steps *)

Lemma getStepIcon_vocabulary maneuverType instruction mode :
  In (getStepIcon maneuverType instruction mode) iconVocabulary.
Proof.
  unfold getStepIcon, iconVocabulary.
  repeat match goal with
         | |- context [if ?c then _ else _] => destruct c
         end; simpl; tauto.
Qed.

Lemma maneuverSteps_icons req i maneuvers :
  Forall (fun step => In (RouteStep.Icon step) iconVocabulary) (maneuverSteps req i maneuvers).
Proof.
  revert i. induction maneuvers as [|m rest IH]; intros i; simpl; constructor.
  - simpl. destruct (i =? 0); [ | apply getStepIcon_vocabulary ].
    unfold firstStepIcon.
    repeat match goal with
           | |- context [if ?c then _ else _] => destruct c
           end; try apply getStepIcon_vocabulary; simpl; tauto.
  - apply IH.
Qed.

Lemma legStep_icon req i leg : In (RouteStep.Icon (legStep req i leg)) iconVocabulary.
Proof.
  unfold legStep, legDescription.
  destruct (transitLeg.Mode leg =? "WALK")%string; [ simpl; tauto | ].
  destruct (existsb _ _); [ apply getStepIcon_vocabulary | simpl; tauto ].
Qed.

Lemma processLegs_icons req i legs steps points :
  processLegs req i legs = Some (steps, points) ->
  Forall (fun step => In (RouteStep.Icon step) iconVocabulary) steps.
Proof.
  revert i steps points. induction legs as [|leg rest IH]; intros i steps points; simpl.
  - intros H; inversion H; constructor.
  - destruct (legPoints leg); [ | discriminate ].
    destruct (processLegs req (i + 1) rest) as [[steps' points']|] eqn:E; [ | discriminate ].
    intros H; inversion H; subst.
    constructor; [ apply legStep_icon | eapply IH; eassumption ].
Qed.

(** The icon of every step of a routed response is one of the fifteen
    tokens of the vocabulary, the empty token included. *)
Theorem route_icons (env : Env.t) (h : History) (req : RouteRequest.t)
  (r : RouteResponse.t) (h' : History) :
  route env h req = (Some (Ok r), h') ->
  forall step, In step (RouteResponse.Steps r) -> In (RouteStep.Icon step) iconVocabulary.
Proof.
  intros Hroute. apply Forall_forall. apply route_Ok in Hroute.
  destruct Hroute as [[vResp Hv] | [_ [itinerary Hi]]].
  - destruct Hv as (h0 & req' & vReq & resp & _ & _ & _ & _ & Hr).
    unfold valhallaRouteResponse in Hr.
    destruct (valhallaResponse.Legs vResp) as [|leg legs].
    + inversion Hr; subst; simpl. constructor.
    + destruct (decodePolyline _); [ | discriminate ].
      inversion Hr; subst; simpl. apply maneuverSteps_icons.
  - destruct Hi as (url & query & resp & tResp & others & _ & _ & _ & _ & _ & Hr).
    unfold itineraryResponse in Hr.
    destruct (processLegs _ _ _) as [[steps points]|] eqn:E; [ | discriminate ].
    inversion Hr; subst; simpl. eapply processLegs_icons; eassumption.
Qed.

Lemma route_icons_witness :
  exists r h',
    route (Sample.world Sample.withItineraries (Sample.served Sample.oneLeg)
             (Sample.planned Sample.thereAndBack)) [] Sample.usTransitRequest
    = (Some (Ok r), h')
    /\ map RouteStep.Icon (RouteResponse.Steps r) = ["Walk"; "Bus"]
    /\ forall step, In step (RouteResponse.Steps r) -> In (RouteStep.Icon step) iconVocabulary.
Proof.
  pose (env := Sample.world Sample.withItineraries (Sample.served Sample.oneLeg)
                 (Sample.planned Sample.thereAndBack)).
  destruct (route env [] Sample.usTransitRequest) as [out h'] eqn:E.
  assert (Hout : exists r, out = Some (Ok r)
                           /\ map RouteStep.Icon (RouteResponse.Steps r) = ["Walk"; "Bus"]).
  { pose proof E as E'. vm_compute in E'. inversion E'; subst.
    eexists; split; reflexivity. }
  destruct Hout as (r & -> & Hicons).
  exists r, h'. split; [ exact E | split; [ exact Hicons | ] ].
  exact (route_icons env [] Sample.usTransitRequest r h' E).
Defined.

(** ** The size of a decoded path *)

Lemma decodeLoop_unfold bytes lat lng rawPoints :
  decodeLoop bytes lat lng rawPoints =
  match bytes with
  | EmptyString => Some rawPoints
  | _ =>
      match readVarint bytes 0 0 with
      | None => None
      | Some (result, rest) =>
          match readVarint rest 0 0 with
          | None => None
          | Some (result', rest') =>
              decodeLoop rest' (addDelta lat result) (addDelta lng result')
                (rawPoints ++ [((float64 (addDelta lat result) / factor)%float,
                                (float64 (addDelta lng result') / factor)%float)])
          end
      end
  end.
Proof.
  funelim (decodeLoop bytes lat lng rawPoints);
    repeat match goal with
           | E : readVarint ?b 0 0 = _ |- context [readVarint ?b 0 0] => rewrite E
           end;
    reflexivity.
Qed.

(** The first pass appends at least one point for a curve that is not
    empty, and at most one for every two bytes. *)
Lemma decodeLoop_points n :
  forall bytes lat lng rawPoints decoded,
    (String.length bytes <= n)%nat ->
    decodeLoop bytes lat lng rawPoints = Some decoded ->
    exists new,
      decoded = (rawPoints ++ new)%list
      /\ (2 * List.length new <= String.length bytes)%nat
      /\ (bytes <> "" -> new <> []).
Proof.
  induction n as [|n IH]; intros bytes lat lng rawPoints decoded Hn;
    rewrite decodeLoop_unfold.
  - destruct bytes; [ | simpl in Hn; lia ].
    intros H; inversion H; subst. exists []. rewrite app_nil_r.
    repeat split; [ simpl; lia | congruence ].
  - destruct bytes as [|c tl].
    + intros H; inversion H; subst. exists []. rewrite app_nil_r.
      repeat split; [ simpl; lia | congruence ].
    + destruct (readVarint (String c tl) 0 0) as [[result rest]|] eqn:Hlat; [ | discriminate ].
      destruct (readVarint rest 0 0) as [[result' rest']|] eqn:Hlng; [ | discriminate ].
      apply readVarint_shorter in Hlat, Hlng.
      intros H. apply IH in H; [ | simpl in Hn, Hlat; lia ].
      destruct H as (new & -> & Hlen & _).
      eexists. rewrite <- app_assoc. split; [ reflexivity | ].
      split; [ simpl in *; lia | discriminate ].
Qed.

Lemma retain_length path p :
  (List.length path <= List.length (retain path p) <= S (List.length path))%nat
  /\ (path = [] -> retain path p = [p]).
Proof.
  unfold retain. split.
  - destruct (isDuplicate path p); [ lia | rewrite length_app; simpl; lia ].
  - intros ->. reflexivity.
Qed.

Lemma fold_retain_length {A : Type} (place : A -> PathPoint) (raw : list A) :
  forall acc,
    (List.length acc
     <= List.length (fold_left (fun normalizedPoints a => retain normalizedPoints (place a))
                       raw acc)
     <= List.length acc + List.length raw)%nat.
Proof.
  induction raw as [|a raw IH]; intros acc; simpl; [ lia | ].
  specialize (IH (retain acc (place a))).
  pose proof (proj1 (retain_length acc (place a))). lia.
Qed.

Lemma normalize_length rawPoints :
  (List.length (normalize rawPoints) <= List.length rawPoints)%nat
  /\ (rawPoints <> [] -> normalize rawPoints <> []).
Proof.
  unfold normalize. destruct rawPoints as [|p0 rest]; [ split; [ simpl; lia | congruence ] | ].
  destruct (bounds p0 rest) as [[[minLat maxLat] minLng] maxLng].
  set (place := fun p : float * float =>
                  (toGrid (snd p) minLng (spanOf minLng maxLng),
                   toGrid (fst p) minLat (spanOf minLat maxLat))).
  change (fold_left _ (p0 :: rest) [])
    with (fold_left (fun normalizedPoints a => retain normalizedPoints (place a))
            (p0 :: rest) []).
  split.
  - pose proof (fold_retain_length place (p0 :: rest) []). simpl in *. lia.
  - intros _ Hnil. simpl in Hnil.
    pose proof (fold_retain_length place rest (retain [] (place p0))) as Hl.
    rewrite Hnil in Hl. unfold retain in Hl. simpl in Hl. lia.
Qed.

(** A curve that is well formed and not empty yields a path that is not
    empty, and a path never has more than one point for every two bytes of
    its curve. *)
Theorem decodePolyline_size (encoded : string) (points : list PathPoint) :
  decodePolyline encoded = Some points ->
  (2 * List.length points <= String.length encoded)%nat
  /\ (encoded <> "" -> points <> []).
Proof.
  unfold decodePolyline.
  destruct (encoded =? "")%string eqn:E.
  - apply String.eqb_eq in E. intros H; inversion H; subst.
    split; [ simpl; lia | congruence ].
  - destruct (decodeLoop encoded 0 0 []) as [rawPoints|] eqn:Hloop; simpl; [ | discriminate ].
    intros H; inversion H; subst.
    destruct (decodeLoop_points _ _ _ _ _ _ (le_n _) Hloop) as (new & -> & Hlen & Hne).
    simpl. destruct (normalize_length new) as [Hl Hn].
    split; [ lia | ]. intros Hencoded. apply Hn. apply Hne. exact Hencoded.
Qed.

Lemma decodePolyline_size_witness :
  decodePolyline Sample.curve = Some [(100, 0); (88, 46); (0, 100)]
  /\ (2 * 3 <= String.length Sample.curve)%nat.
Proof.
  assert (H : decodePolyline Sample.curve = Some [(100, 0); (88, 46); (0, 100)])
    by (vm_compute; reflexivity).
  split; [ exact H | ].
  exact (proj1 (decodePolyline_size _ _ H)).
Defined.

(** ** Curves that make the decoder panic *)

Lemma readVarint_last bytes :
  forall shift result r rest,
    readVarint bytes shift result = Some (r, rest) ->
    match rest with
    | EmptyString => exists c, lastByte bytes = Some c /\ continuation c = false
    | _ => lastByte bytes = lastByte rest
    end.
Proof.
  induction bytes as [|c tl IH]; intros shift result r rest; simpl; [ discriminate | ].
  destruct (32 <=? byteVal c - 63) eqn:Hc.
  - intros H. specialize (IH _ _ _ _ H).
    destruct tl as [|c' tl']; [ simpl in H; discriminate | ].
    exact IH.
  - intros H; inversion H; subst.
    destruct rest; [ exists c; split; [ reflexivity | exact Hc ] | reflexivity ].
Qed.

Lemma decodeLoop_last n :
  forall bytes lat lng rawPoints decoded c,
    (String.length bytes <= n)%nat ->
    decodeLoop bytes lat lng rawPoints = Some decoded ->
    lastByte bytes = Some c -> continuation c = false.
Proof.
  induction n as [|n IH]; intros bytes lat lng rawPoints decoded c0 Hn;
    rewrite decodeLoop_unfold.
  - destruct bytes; [ discriminate | simpl in Hn; lia ].
  - destruct bytes as [|c tl]; [ discriminate | ].
    destruct (readVarint (String c tl) 0 0) as [[result rest]|] eqn:Hlat; [ | discriminate ].
    destruct (readVarint rest 0 0) as [[result' rest']|] eqn:Hlng; [ | discriminate ].
    pose proof (readVarint_last _ _ _ _ _ Hlat) as Hl1.
    pose proof (readVarint_last _ _ _ _ _ Hlng) as Hl2.
    apply readVarint_shorter in Hlat, Hlng.
    destruct rest as [|c1 rest1]; [ simpl in Hlng; lia | ].
    rewrite Hl1.
    destruct rest' as [|c2 rest2].
    + destruct Hl2 as (c' & Hc' & Hcont). rewrite Hc'.
      intros _ Hc; inversion Hc; subst. exact Hcont.
    + rewrite Hl2. intros H. eapply IH; [ | exact H ].
      simpl in *. lia.
Qed.

(** A curve whose last byte announces a further byte makes the decoder
    panic: it reads past the end of the string. *)
Theorem decodePolyline_truncated (encoded : string) (c : ascii) :
  lastByte encoded = Some c -> continuation c = true ->
  decodePolyline encoded = None.
Proof.
  intros Hlast Hcont. unfold decodePolyline.
  destruct (encoded =? "")%string eqn:E.
  - apply String.eqb_eq in E. subst. discriminate.
  - destruct (decodeLoop encoded 0 0 []) as [rawPoints|] eqn:Hloop; [ | reflexivity ].
    pose proof (decodeLoop_last _ _ _ _ _ _ _ (le_n _) Hloop Hlast). congruence.
Qed.

Lemma decodePolyline_truncated_witness : decodePolyline "_p~iF~ps|U_" = None.
Proof. exact (decodePolyline_truncated "_p~iF~ps|U_" "_" eq_refl eq_refl). Defined.

(** ** The number of points of a decoded path *)

Lemma farApart_NoDup path : farApart path -> NoDup path.
Proof.
  intros Hfar. apply NoDup_nth_error. intros i j Hi Heq.
  destruct (nth_error path i) as [p|] eqn:Hp;
    [ | apply nth_error_None in Hp; lia ].
  symmetry in Heq.
  destruct (Nat.lt_trichotomy i j) as [Hlt | [Hij | Hgt]]; [ | exact Hij | ].
  - pose proof (Hfar i j p p Hlt Hp Heq). unfold distance1 in *. lia.
  - pose proof (Hfar j i p p Hgt Heq Hp). unfold distance1 in *. lia.
Qed.

Lemma farApart_In path p q :
  farApart path -> In p path -> In q path -> p <> q -> 2 < distance1 p q.
Proof.
  intros Hfar Hp Hq Hne.
  apply In_nth_error in Hp, Hq. destruct Hp as [i Hi]. destruct Hq as [j Hj].
  destruct (Nat.lt_trichotomy i j) as [Hlt | [Hij | Hgt]].
  - exact (Hfar i j p q Hlt Hi Hj).
  - subst j. congruence.
  - pose proof (Hfar j i q p Hgt Hj Hi). unfold distance1 in *. lia.
Qed.

(** Points more than 2 apart never share a row and a block of three
    columns: that leaves 34 blocks in each of the 101 rows. *)
Lemma retained_length path : retained path -> (List.length path <= 3434)%nat.
Proof.
  intros [Hgrid Hfar].
  pose (cell := fun p : PathPoint => (Z.to_nat (fst p / 3), Z.to_nat (snd p))).
  assert (Hcells : NoDup (map cell path)).
  { apply NoDup_map_NoDup_ForallPairs; [ | apply farApart_NoDup; exact Hfar ].
    intros p q Hp Hq Hcell.
    destruct (Z.eq_dec (fst p) (fst q)) as [Hx|Hx];
      [ destruct (Z.eq_dec (snd p) (snd q)) as [Hy|Hy] | ].
    - destruct p, q; simpl in *; congruence.
    - exfalso.
      pose proof (proj1 (Forall_forall _ _) Hgrid p Hp) as [_ Hpy].
      pose proof (proj1 (Forall_forall _ _) Hgrid q Hq) as [_ Hqy].
      unfold cell in Hcell. inversion Hcell as [[Hc1 Hc2]].
      apply Z2Nat.inj in Hc2; lia.
    - exfalso.
      assert (Hne : p <> q) by congruence.
      pose proof (farApart_In _ _ _ Hfar Hp Hq Hne) as Hd.
      pose proof (proj1 (Forall_forall _ _) Hgrid p Hp) as [Hpx Hpy].
      pose proof (proj1 (Forall_forall _ _) Hgrid q Hq) as [Hqx Hqy].
      unfold cell in Hcell. inversion Hcell as [[Hc1 Hc2]].
      unfold distance1, NormalizedGridSize in *.
      apply Z2Nat.inj in Hc1; [ | apply Z.div_pos; lia | apply Z.div_pos; lia ].
      apply Z2Nat.inj in Hc2; [ | lia | lia ].
      Z.div_mod_to_equations. lia. }
  assert (Hincl : incl (map cell path) (list_prod (seq 0 34) (seq 0 101))).
  { intros c Hc. apply in_map_iff in Hc. destruct Hc as (p & <- & Hp).
    pose proof (proj1 (Forall_forall _ _) Hgrid p Hp) as [Hpx Hpy].
    unfold NormalizedGridSize in *.
    assert (Hblock : 0 <= fst p / 3 < 34) by (Z.div_mod_to_equations; lia).
    apply in_prod; apply in_seq; lia. }
  pose proof (NoDup_incl_length Hcells Hincl) as Hlen.
  rewrite length_map, length_prod, !length_seq in Hlen. exact Hlen.
Qed.

(** The points of a decoded path are pairwise distinct, and there are at
    most 3434 of them however long the curve is. *)
Theorem decodePolyline_bounded (encoded : string) (points : list PathPoint) :
  decodePolyline encoded = Some points ->
  NoDup points /\ (List.length points <= 3434)%nat.
Proof.
  intros H. apply decodePolyline_retained in H.
  split; [ apply farApart_NoDup; apply H | apply retained_length; exact H ].
Qed.

Lemma decodePolyline_bounded_witness :
  decodePolyline Sample.curveBack = Some [(0, 100); (39, 53); (100, 0)]
  /\ NoDup [(0, 100); (39, 53); (100, 0)].
Proof.
  assert (H : decodePolyline Sample.curveBack = Some [(0, 100); (39, 53); (100, 0)])
    by (vm_compute; reflexivity).
  split; [ exact H | ].
  exact (proj1 (decodePolyline_bounded _ _ H)).
Defined.

(** ** Decoding what was encoded *)

Lemma encodeUnsigned_bytes v :
  encodeUnsigned v =
  if v <? 32 then String (ascii_of_N (Z.to_N (v + 63))) EmptyString
  else String (ascii_of_N (Z.to_N (Z.lor 32 (Z.land v 31) + 63)))
         (encodeUnsigned (Z.shiftr v 5)).
Proof.
  funelim (encodeUnsigned v);
    match goal with E : (_ <? 32) = _ |- _ => rewrite E end; reflexivity.
Qed.

Lemma byteVal_ascii n : 0 <= n < 256 -> byteVal (ascii_of_N (Z.to_N n)) = n.
Proof.
  intros Hn. unfold byteVal. rewrite N_ascii_embedding by lia. lia.
Qed.

Lemma wrap64_small z : - 2 ^ 63 <= z < 2 ^ 63 -> wrap64 z = z.
Proof. intros Hz. unfold wrap64. rewrite Z.mod_small by lia. lia. Qed.

Lemma shl64_small c shift :
  0 <= c -> 0 <= shift -> c * 2 ^ shift < 2 ^ 63 -> shl64 c shift = Z.shiftl c shift.
Proof.
  intros Hc Hshift Hfit. unfold shl64.
  destruct (64 <=? shift) eqn:E.
  - apply Z.leb_le in E.
    assert (2 ^ 64 <= 2 ^ shift) by (apply Z.pow_le_mono_r; lia).
    assert (c = 0) by nia. subst c. rewrite Z.shiftl_0_l. reflexivity.
  - rewrite Z.shiftl_mul_pow2 by lia.
    apply wrap64_small.
    assert (0 < 2 ^ shift) by (apply Z.pow_pos_nonneg; lia). nia.
Qed.

Lemma land_31 v : Z.land v 31 = v mod 32.
Proof. change 31 with (Z.ones 5). rewrite Z.land_ones by lia. reflexivity. Qed.

Lemma lor_32 c : 0 <= c < 32 -> Z.lor 32 c = 32 + c.
Proof.
  intros Hc.
  replace c with (Z.of_nat (Z.to_nat c)) by lia.
  assert (Hn : (Z.to_nat c < 32)%nat) by lia.
  generalize dependent (Z.to_nat c). clear Hc. intros n Hn.
  do 32 (destruct n as [|n]; [ reflexivity | ]). lia.
Qed.

Lemma chunks_join v : Z.lor (Z.land v 31) (Z.shiftl (Z.shiftr v 5) 5) = v.
Proof.
  apply Z.bits_inj'. intros n Hn.
  rewrite Z.lor_spec, Z.land_spec, Z.shiftl_spec by lia.
  change 31 with (Z.ones 5). rewrite Z.testbit_ones_nonneg by lia.
  destruct (n <? 5) eqn:E.
  - apply Z.ltb_lt in E. rewrite (Z.testbit_neg_r _ (n - 5)) by lia.
    rewrite andb_true_r, orb_false_r. reflexivity.
  - apply Z.ltb_ge in E. rewrite Z.shiftr_spec by lia.
    rewrite andb_false_r. simpl. f_equal. lia.
Qed.

(** The inner loop reads back the number that was written. *)
Lemma readVarint_encodeUnsigned v :
  0 <= v ->
  forall shift result rest,
    0 <= shift -> v * 2 ^ shift < 2 ^ 63 ->
    readVarint (encodeUnsigned v ++ rest) shift result
    = Some (Z.lor result (Z.shiftl v shift), rest).
Proof.
  intros Hv. generalize Hv. pattern v. apply Z_lt_induction; [ clear v Hv | exact Hv ].
  intros v IH Hv shift result rest Hshift Hfit.
  assert (Hpow : 0 < 2 ^ shift) by (apply Z.pow_pos_nonneg; lia).
  rewrite encodeUnsigned_bytes.
  destruct (v <? 32) eqn:E.
  - apply Z.ltb_lt in E. cbn [append readVarint].
    rewrite byteVal_ascii by lia.
    replace (v + 63 - 63) with v by lia.
    rewrite land_31, Z.mod_small by lia.
    rewrite shl64_small by lia.
    assert (E' : (32 <=? v) = false) by (apply Z.leb_gt; lia).
    rewrite E'. reflexivity.
  - apply Z.ltb_ge in E. cbn [append readVarint].
    assert (Hc : 0 <= v mod 32 < 32) by (apply Z.mod_pos_bound; lia).
    rewrite land_31, lor_32 by exact Hc.
    rewrite byteVal_ascii by lia.
    replace (32 + v mod 32 + 63 - 63) with (32 + v mod 32) by lia.
    assert (E' : (32 <=? 32 + v mod 32) = true) by (apply Z.leb_le; lia).
    rewrite E'.
    replace (Z.land (32 + v mod 32) 31) with (v mod 32)
      by (rewrite land_31; Z.div_mod_to_equations; lia).
    assert (Hle : v mod 32 <= v) by (Z.div_mod_to_equations; lia).
    rewrite shl64_small by nia.
    assert (Hdiv : Z.shiftr v 5 = v / 32) by (rewrite Z.shiftr_div_pow2 by lia; reflexivity).
    rewrite IH.
    + rewrite <- Z.lor_assoc. do 2 f_equal.
      replace (shift + 5) with (5 + shift) by lia.
      rewrite <- (Z.shiftl_shiftl _ 5 shift) by lia.
      rewrite <- Z.shiftl_lor, <- land_31, chunks_join. reflexivity.
    + rewrite Hdiv. Z.div_mod_to_equations. lia.
    + rewrite Hdiv. apply Z.div_pos; lia.
    + lia.
    + rewrite Hdiv, Z.pow_add_r by lia.
      assert (v / 32 * 32 <= v) by (Z.div_mod_to_equations; lia).
      change (2 ^ 5) with 32. nia.
Qed.

Lemma encodeUnsigned_nonempty v : exists c tl, encodeUnsigned v = String c tl.
Proof. rewrite encodeUnsigned_bytes. destruct (v <? 32); eauto. Qed.

(** The sign is taken out of the lowest bit again. *)
Lemma readVarint_encodeSigned d rest :
  - 2 ^ 61 <= d <= 2 ^ 61 ->
  exists result,
    readVarint (encodeSigned d ++ rest) 0 0 = Some (result, rest)
    /\ forall acc, - 2 ^ 63 <= acc + d < 2 ^ 63 -> addDelta acc result = acc + d.
Proof.
  intros Hd. unfold encodeSigned.
  set (v := if d <? 0 then Z.lnot (Z.shiftl d 1) else Z.shiftl d 1).
  assert (Hv : v = if d <? 0 then - (2 * d) - 1 else 2 * d).
  { subst v. rewrite Z.shiftl_mul_pow2 by lia. unfold Z.lnot.
    destruct (d <? 0); change (2 ^ 1) with 2; lia. }
  assert (Hrange : 0 <= v < 2 ^ 63).
  { rewrite Hv. destruct (d <? 0) eqn:E;
      [ apply Z.ltb_lt in E | apply Z.ltb_ge in E ]; lia. }
  exists v. split.
  - rewrite readVarint_encodeUnsigned by (simpl; lia).
    rewrite Z.shiftl_0_r, Z.lor_0_l. reflexivity.
  - intros acc Hacc. unfold addDelta.
    change 1 with (Z.ones 1) at 1. rewrite Z.land_ones by lia.
    rewrite Z.shiftr_div_pow2 by lia. change (2 ^ 1) with 2.
    unfold Z.lnot. rewrite Hv.
    destruct (d <? 0) eqn:E; [ apply Z.ltb_lt in E | apply Z.ltb_ge in E ].
    + replace ((- (2 * d) - 1) mod 2) with 1 by (Z.div_mod_to_equations; lia).
      replace ((- (2 * d) - 1) / 2) with (- d - 1) by (Z.div_mod_to_equations; lia).
      change (1 >? 0) with true. cbv iota. rewrite wrap64_small by lia. lia.
    + replace ((2 * d) mod 2) with 0 by (Z.div_mod_to_equations; lia).
      replace (2 * d / 2) with d by (Z.div_mod_to_equations; lia).
      change (0 >? 0) with false. cbv iota. rewrite wrap64_small by lia. lia.
Qed.

Lemma decodeLoop_encodeFrom pts :
  forall lat lng rawPoints,
    encodable (lat, lng) -> Forall encodable pts ->
    decodeLoop (encodeFrom lat lng pts) lat lng rawPoints
    = Some (rawPoints ++ map degrees pts)%list.
Proof.
  induction pts as [|[lat' lng'] rest IH]; intros lat lng rawPoints Hcur Hall.
  - simpl. rewrite decodeLoop_unfold, app_nil_r. reflexivity.
  - inversion Hall as [|p ps Hp Hrest]; subst.
    destruct Hcur as [Hlat Hlng]. destruct Hp as [Hlat' Hlng'].
    simpl in Hlat, Hlng, Hlat', Hlng'.
    cbn [encodeFrom].
    destruct (readVarint_encodeSigned (lat' - lat)
                (encodeSigned (lng' - lng) ++ encodeFrom lat' lng' rest))
      as (r1 & Hread1 & Hadd1); [ lia | ].
    destruct (readVarint_encodeSigned (lng' - lng) (encodeFrom lat' lng' rest))
      as (r2 & Hread2 & Hadd2); [ lia | ].
    rewrite decodeLoop_unfold, Hread1, Hread2.
    rewrite Hadd1, Hadd2 by lia.
    replace (lat + (lat' - lat)) with lat' by lia.
    replace (lng + (lng' - lng)) with lng' by lia.
    unfold encodeSigned at 1.
    destruct (encodeUnsigned_nonempty
                (if lat' - lat <? 0 then Z.lnot (Z.shiftl (lat' - lat) 1)
                 else Z.shiftl (lat' - lat) 1)) as (c & tl & ->).
    cbn [append].
    rewrite IH by (try assumption; split; simpl; lia).
    rewrite <- app_assoc. reflexivity.
Qed.

(** Decoding an encoded curve gives back its points: the decoder returns,
    and its path is the normalization of exactly the points that were
    encoded (each divided by 10^5). *)
Theorem decodePolyline_encodePolyline (pts : list (Z * Z)) :
  Forall encodable pts ->
  decodePolyline (encodePolyline pts) = Some (normalize (map degrees pts)).
Proof.
  intros Hall. unfold decodePolyline, encodePolyline.
  rewrite decodeLoop_encodeFrom; [ | split; simpl; lia | exact Hall ].
  simpl. destruct (encodeFrom 0 0 pts =? "")%string eqn:E; [ | reflexivity ].
  apply String.eqb_eq in E.
  destruct pts as [|[lat' lng'] rest]; [ reflexivity | ].
  exfalso. revert E. cbn [encodeFrom]. unfold encodeSigned at 1.
  destruct (encodeUnsigned_nonempty
              (if lat' - 0 <? 0 then Z.lnot (Z.shiftl (lat' - 0) 1)
               else Z.shiftl (lat' - 0) 1)) as (c & tl & ->).
  discriminate.
Qed.

Lemma decodePolyline_encodePolyline_witness :
  encodePolyline [(3850000, -12020000); (4070000, -12095000); (4325200, -12645300)]
  = Sample.curve
  /\ decodePolyline Sample.curve
     = Some (normalize [(38.5, -120.2); (40.7, -120.95); (43.252, -126.453)]%float).
Proof.
  assert (Henc : encodePolyline
                   [(3850000, -12020000); (4070000, -12095000); (4325200, -12645300)]
                 = Sample.curve) by (vm_compute; reflexivity).
  split; [ exact Henc | ].
  rewrite <- Henc.
  rewrite decodePolyline_encodePolyline.
  - vm_compute. reflexivity.
  - repeat constructor; simpl; lia.
Defined.

(** ** The length of an abbreviated instruction *)

Lemma length_append (a b : string) :
  String.length (a ++ b) = (String.length a + String.length b)%nat.
Proof. induction a as [|x a IH]; simpl; [ reflexivity | rewrite IH; reflexivity ]. Qed.

Lemma prefix_length (a b : string) :
  prefix a b = true -> (String.length a <= String.length b)%nat.
Proof.
  revert b. induction a as [|x a IH]; intros b; destruct b as [|y b]; simpl;
    try lia; try discriminate.
  destruct (ascii_dec x y); [ | discriminate ].
  intros H. apply IH in H. lia.
Qed.

Lemma Contains_length (s sub : string) :
  Contains s sub = true -> (String.length sub <= String.length s)%nat.
Proof.
  induction s as [|c s IH]; simpl.
  - rewrite orb_false_r. apply (prefix_length sub "").
  - intros H. apply orb_true_iff in H. destruct H as [H | H].
    + apply (prefix_length sub (String c s)) in H. exact H.
    + apply IH in H. lia.
Qed.

Lemma substring_length (m : nat) (s : string) :
  (String.length (substring 0 m s) <= String.length s)%nat.
Proof.
  revert m. induction s as [|c s IH]; intros m; destruct m; simpl; try lia.
  specialize (IH m). lia.
Qed.

Lemma TrimSuffix_length (s suffix : string) :
  (String.length (TrimSuffix s suffix) <= String.length s)%nat.
Proof.
  unfold TrimSuffix. destruct (_ && _); [ apply substring_length | lia ].
Qed.

Lemma replaceFrom_length (old new : string) :
  (0 < String.length old)%nat -> (String.length new <= String.length old)%nat ->
  forall s skip,
    (skip <= String.length s)%nat ->
    (String.length (replaceFrom old new skip s) + skip <= String.length s)%nat.
Proof.
  intros Hold Hnew. induction s as [|c s IH]; intros skip Hskip.
  - simpl in *. lia.
  - destruct skip as [|k]; cbn [replaceFrom].
    + destruct (prefix old (String c s)) eqn:E.
      * apply prefix_length in E. rewrite length_append. simpl in *.
        specialize (IH (String.length old - 1)%nat). lia.
      * simpl. specialize (IH 0%nat). lia.
    + simpl in *. specialize (IH k). lia.
Qed.

Lemma ReplaceAll_length (s old new : string) :
  (0 < String.length old)%nat -> (String.length new <= String.length old)%nat ->
  (String.length (ReplaceAll s old new) <= String.length s)%nat.
Proof.
  intros Hold Hnew. unfold ReplaceAll.
  pose proof (replaceFrom_length old new Hold Hnew s 0%nat). lia.
Qed.

Lemma abbreviations_shorten :
  Forall (fun '(old, new) =>
            (0 < String.length old)%nat /\ (String.length new <= String.length old)%nat)
    abbreviations.
Proof. repeat constructor; simpl; lia. Qed.

(** An abbreviated instruction is never longer than the instruction the
    backend gave. *)
Theorem abbreviateInstruction_length (instruction : string) :
  (String.length (abbreviateInstruction instruction) <= String.length instruction)%nat.
Proof.
  unfold abbreviateInstruction.
  destruct (Contains instruction _) eqn:E.
  - apply Contains_length in E. simpl in *. lia.
  - pose proof (TrimSuffix_length instruction ".") as Hstart.
    revert Hstart. generalize (TrimSuffix instruction ".").
    pose proof abbreviations_shorten as Hall. revert Hall.
    generalize abbreviations. intros pairs Hall.
    induction Hall as [|[old new] pairs [Hold Hnew] Hall IH]; intros s Hs; simpl.
    + exact Hs.
    + apply IH. pose proof (ReplaceAll_length s old new Hold Hnew). lia.
Qed.

(** * Further properties of the routing handler *)

Lemma Split_length (s : string) (sep : ascii) :
  List.length (Split s sep) = S (occurrences sep s).
Proof.
  induction s as [|c s IH]; simpl; [ reflexivity | ].
  destruct (Ascii.eqb c sep); simpl.
  - rewrite IH. reflexivity.
  - destruct (Split s sep) as [|f fs]; simpl in *; [ discriminate | exact IH ].
Qed.

(** A pair of coordinates is rejected as malformed exactly when the text
    does not hold one comma; with one comma, the only failures are those of
    the two numbers. *)
Theorem parseLatLng_format (env : Env.t) (s : string) :
  parseLatLng env s = Err "invalid lat,lng format" <-> occurrences "," s <> 1%nat.
Proof.
  unfold parseLatLng. pose proof (Split_length s ",") as Hlen.
  destruct (Split s ",") as [|p0 [|p1 [|p2 rest]]]; simpl in Hlen.
  - discriminate.
  - split; [ intros _; lia | reflexivity ].
  - split; [ | intros Hne; exfalso; lia ].
    unfold bind, mapErr.
    destruct (Env.ParseFloat env (TrimSpace p0)); [ | simpl; discriminate ].
    destruct (Env.ParseFloat env (TrimSpace p1)); simpl; discriminate.
  - split; [ intros _; lia | reflexivity ].
Qed.





(** Both verbs of the routing endpoint hand the router a mode and units it
    knows: what the request gave if valid, the default otherwise; so the
    router's own check of the units passes and changes nothing. *)
Theorem handlers_pass_valid_tokens (env : Env.t) (r : Request.t) (req : RouteRequest.t) :
  parseGet env r = Ok req \/ parsePost env r = Ok req ->
  TransportMode_IsValid (RouteRequest.Mode req) = true
  /\ DistanceUnit_IsValid (RouteRequest.Units req) = true
  /\ validateUnits req = Ok req.
Proof.
  assert (Hvalid : forall req : RouteRequest.t,
             DistanceUnit_IsValid (RouteRequest.Units req) = true ->
             validateUnits req = Ok req).
  { intros q Hq. unfold validateUnits. rewrite Hq.
    destruct (RouteRequest.Units q =? "")%string eqn:E; [ | reflexivity ].
    apply String.eqb_eq in E. rewrite E in Hq. discriminate. }
  assert (Hgoal : TransportMode_IsValid (RouteRequest.Mode req) = true ->
                  DistanceUnit_IsValid (RouteRequest.Units req) = true ->
                  TransportMode_IsValid (RouteRequest.Mode req) = true
                  /\ DistanceUnit_IsValid (RouteRequest.Units req) = true
                  /\ validateUnits req = Ok req) by (intros; auto).
  intros [H | H].
  - unfold parseGet in H.
    destruct (_ || _) in H; [ discriminate | ].
    destruct (ToLower (queryGet (Request.Query r) "country") =? "")%string;
      [ | destruct (negb (CountryCode_IsValid _)); [ discriminate | ] ];
      cbn [bind] in H.
    all: destruct (queryGet (Request.Query r) "mode" =? "")%string;
      [ | destruct (negb (TransportMode_IsValid _)) eqn:Em; [ discriminate | ] ];
      cbn [bind] in H.
    all: destruct (queryGet (Request.Query r) "units" =? "")%string;
      [ | destruct (negb (DistanceUnit_IsValid _)) eqn:Eu; [ discriminate | ] ];
      cbn [bind] in H.
    all: destruct (mapErr _ (parseLatLng env (queryGet (Request.Query r) "from")));
      [ | discriminate ]; cbn [bind] in H.
    all: destruct (mapErr _ (parseLatLng env (queryGet (Request.Query r) "to")));
      [ | discriminate ]; cbn [bind] in H.
    all: inversion H; subst; clear H; apply Hgoal; cbn [RouteRequest.Mode RouteRequest.Units];
      try reflexivity;
      try (apply negb_false_iff; assumption).
  - unfold parsePost in H.
    destruct (mapErr _ (Request.Body r)) as [body | ]; [ | discriminate ]; cbn [bind] in H.
    destruct (_ <? 5)%nat in H; [ discriminate | ].
    destruct (mapErr _ (parseLatLng env _)) in H; [ | discriminate ]; cbn [bind] in H.
    destruct (mapErr _ (parseLatLng env _)) in H; [ | discriminate ]; cbn [bind] in H.
    inversion H; subst; clear H. apply Hgoal; cbn [RouteRequest.Mode RouteRequest.Units].
    + destruct (negb (TransportMode_IsValid _)) eqn:Em; [ reflexivity | ].
      apply negb_false_iff; assumption.
    + destruct (negb (DistanceUnit_IsValid _)) eqn:Eu; [ reflexivity | ].
      apply negb_false_iff; assumption.
Qed.

Lemma handlers_pass_valid_tokens_witness :
  validateUnits Sample.postedRequest = Ok Sample.postedRequest.
Proof.
  pose (env := Sample.world Sample.directOnly Sample.notConnected Sample.noPlan).
  assert (E : parsePost env (Sample.postRequest "hovercraft" "us" "furlongs" "1,2" "3,4")
              = Ok Sample.postedRequest) by (vm_compute; reflexivity).
  exact (proj2 (proj2 (handlers_pass_valid_tokens env _ _ (or_intror E)))).
Defined.

(** * Further properties of the geocoder *)

(** ** The results of a search *)

Lemma lowerByte_idempotent (c : ascii) : lowerByte (lowerByte c) = lowerByte c.
Proof. destruct c as [[] [] [] [] [] [] [] []]; reflexivity. Qed.

Lemma ToLower_idempotent (s : string) : ToLower (ToLower s) = ToLower s.
Proof.
  unfold ToLower. induction s as [|c s IH]; simpl; [ reflexivity | ].
  rewrite lowerByte_idempotent, IH. reflexivity.
Qed.

Lemma formatAddress_country addr nameDetails :
  snd (formatAddress addr nameDetails) = ToLower (nominatimAddress.Country addr).
Proof. reflexivity. Qed.

Lemma convertResults_converted env candidates results :
  convertResults env candidates = Ok results ->
  Forall2 (converted env) candidates results.
Proof.
  revert results. induction candidates as [|c rest IH]; intros results; cbn [convertResults].
  - intros H; inversion H. constructor.
  - unfold parseFloat.
    destruct (GeocodeEnv.Sscanf env (nominatimResponse.Lat c)) as [lat | ] eqn:Elat;
      [ | discriminate ].
    destruct (GeocodeEnv.Sscanf env (nominatimResponse.Lon c)) as [lng | ] eqn:Elng;
      [ | discriminate ].
    cbn [mapErr bind].
    destruct (formatAddress _ _) as [[name addr] country] eqn:Eaddr.
    destruct (convertResults env rest) as [others | ]; [ | discriminate ].
    cbn [bind]. intros H; inversion H; subst; clear H.
    constructor; [ | apply IH; reflexivity ].
    unfold converted; cbn. auto.
Qed.

Lemma geocode_calls env h query :
  snd (geocode env h query) = (h ++ [searchCall env query])%list.
Proof.
  unfold geocode, searchCall.
  destruct (GeocodeEnv.httpGet _ _ _ _) as [resp | ]; [ | reflexivity ].
  destruct (negb _); [ reflexivity | ].
  destruct (nominatimReply.Decoded resp) as [candidates | ]; [ | reflexivity ].
  destruct (_ =? 0)%nat; [ reflexivity | ].
  destruct (convertResults env candidates); reflexivity.
Qed.

(** A search that succeeds has called the backend once, which answered 200
    with at least one candidate, and gives one result for each candidate, in
    the backend's order: its coordinates scanned, its importance copied, its
    name and address formatted; the country code of every result is in
    lower case. *)
Theorem geocode_results (env : GeocodeEnv.t) (h h' : History) (query : string)
  (results : list GeocodeResponse.t) :
  geocode env h query = (inr results, h') ->
  h' = (h ++ [searchCall env query])%list
  /\ results <> []
  /\ (exists reply candidates,
        GeocodeEnv.httpGet env h
          (NavConfig.NominatimURL (GeocodeEnv.navConfig env) ++ "/search") (searchQuery query)
        = Ok reply
        /\ nominatimReply.StatusCode reply = 200
        /\ nominatimReply.Decoded reply = Ok candidates
        /\ Forall2 (converted env) candidates results)
  /\ Forall (fun r => ToLower (GeocodeResponse.Country r) = GeocodeResponse.Country r) results.
Proof.
  intros H. pose proof (geocode_calls env h query) as Hcalls. rewrite H in Hcalls.
  cbn [snd] in Hcalls. split; [ exact Hcalls | ]. clear Hcalls.
  unfold geocode in H.
  destruct (GeocodeEnv.httpGet _ _ _ _) as [reply | ] eqn:Ereply; [ | discriminate ].
  destruct (negb _) eqn:Estatus; [ discriminate | ].
  apply negb_false_iff, Z.eqb_eq in Estatus.
  destruct (nominatimReply.Decoded reply) as [candidates | ] eqn:Edec; [ | discriminate ].
  destruct (_ =? 0)%nat eqn:Elen; [ discriminate | ].
  apply Nat.eqb_neq in Elen.
  destruct (convertResults env candidates) as [rs | ] eqn:Econv; [ | discriminate ].
  inversion H; subst; clear H.
  pose proof (convertResults_converted _ _ _ Econv) as Hall.
  split; [ | split ].
  - intros ->. inversion Hall; subst. apply Elen. reflexivity.
  - exists reply, candidates. auto.
  - clear -Hall. induction Hall as [|c r cs rs Hcr _ IH]; constructor; [ | exact IH ].
    destruct Hcr as (_ & _ & _ & Haddr).
    pose proof (formatAddress_country (nominatimResponse.Address c)
                  (nominatimResponse.NameDetails c)) as Hc.
    rewrite Haddr in Hc. cbn [snd] in Hc. rewrite Hc. apply ToLower_idempotent.
Qed.

Lemma geocode_results_witness :
  exists results h',
    geocode Sample.atlas [] "main street" = (inr results, h')
    /\ List.length results = 2%nat
    /\ map GeocodeResponse.Country results = ["us"; "us"].
Proof.
  assert (E : exists results h', geocode Sample.atlas [] "main street" = (inr results, h'))
    by (eexists _, _; vm_compute; reflexivity).
  destruct E as (results & h' & E). exists results, h'.
  split; [ exact E | ].
  destruct (geocode_results _ _ _ _ _ E) as (_ & _ & _ & _).
  vm_compute in E. inversion E. split; reflexivity.
Defined.

(** ** The statuses of the geocoding endpoint *)

Lemma writeResultLines_header w results :
  GeocodeWriter.Status (writeResultLines w results) = GeocodeWriter.Status w
  /\ GeocodeWriter.ContentType (writeResultLines w results) = GeocodeWriter.ContentType w.
Proof.
  revert w. induction results as [|r rest IH]; intros w; cbn [writeResultLines];
    [ auto | ].
  match goal with
  | |- context [writeResultLines ?w0 rest] => destruct (IH w0) as [Hs Hc]; rewrite Hs, Hc
  end.
  auto.
Qed.

Lemma writePlainTextResults_header w results :
  GeocodeWriter.Status (writePlainTextResults w results) = GeocodeWriter.Status w
  /\ GeocodeWriter.ContentType (writePlainTextResults w results) = "text/plain".
Proof.
  unfold writePlainTextResults.
  match goal with
  | |- context [writeResultLines ?w0 results] =>
      destruct (writeResultLines_header w0 results) as [Hs Hc]; rewrite Hs, Hc
  end.
  auto.
Qed.

Lemma writeResults_header w results :
  GeocodeWriter.Status (writeResults w results) = GeocodeWriter.Status w
  /\ GeocodeWriter.ContentType (writeResults w results) = "application/json".
Proof. unfold writeResults. destruct (forallb marshals results); auto. Qed.

(** The case analysis a table of statuses comes to. *)
Ltac settle_status :=
  repeat split; try (intros; discriminate); try (intros; congruence);
  try (simpl; tauto); auto 10;
  intros;
  repeat match goal with
         | H : _ \/ _ |- _ => destruct H
         | H : _ /\ _ |- _ => destruct H
         end;
  try discriminate; try congruence.

(** The statuses of the geocoding endpoint, for a response whose status has
    not been set: 200, 400, 404, 405 or 500. A 400 and a 405 come as JSON
    before the backend is called, the 405 for the verbs other than GET and
    POST; every other reply follows one search for a query that is not
    empty: 200 for results, 404 when the backend knows no candidate, 500 for
    any other failure; a POST gets its 404 and 500 as plain text, a GET as
    JSON. *)
Theorem HandleGeocode_status (env : GeocodeEnv.t) (h h' : History) (w w' : GeocodeWriter.t)
  (r : Request.t) :
  GeocodeWriter.Status w = StatusOK ->
  HandleGeocode env h w r = (w', h') ->
  let status := GeocodeWriter.Status w' in
  In status [200; 400; 404; 405; 500]
  /\ (status = 400 \/ status = 405 ->
      h' = h /\ GeocodeWriter.ContentType w' = "application/json")
  /\ (status = 405 <-> Request.Method r <> "GET" /\ Request.Method r <> "POST")
  /\ (status = 200 \/ status = 404 \/ status = 500 ->
      exists query,
        query <> "" /\ h' = (h ++ [searchCall env query])%list
        /\ match fst (geocode env h query) with
           | inr _ => status = 200
           | inl (ErrNoResults _) => status = 404
           | inl (errorString _) => status = 500
           end)
  /\ (status = 404 \/ status = 500 ->
      GeocodeWriter.ContentType w'
      = if (Request.Method r =? "POST")%string then "text/plain; charset=utf-8"
        else "application/json").
Proof.
  intros Hw. unfold HandleGeocode, MethodGet, MethodPost.
  assert (Hsearch : forall query out h1,
             (query =? "")%string = false -> geocode env h query = (out, h1) ->
             query <> "" /\ h1 = (h ++ [searchCall env query])%list
             /\ fst (geocode env h query) = out).
  { intros query out h1 Hq Hg. apply String.eqb_neq in Hq.
    pose proof (geocode_calls env h query) as Hc. rewrite Hg in *. auto. }
  destruct (Request.Method r =? "GET")%string eqn:Eget.
  - apply String.eqb_eq in Eget. rewrite Eget.
    change ("GET" =? "POST")%string with false.
    destruct (queryGet (Request.Query r) "q" =? "")%string eqn:Eq.
    + intros H; inversion H; subst; clear H; cbn.
      settle_status.
    + destruct (geocode env h _) as [[[q | msg] | results] h1] eqn:Hg;
        destruct (Hsearch _ _ _ Eq Hg) as (Hne & Hh & Hout);
        intros H; inversion H; subst; clear H.
      * cbn. settle_status.
        all: eexists; split; [ exact Hne | split; [ reflexivity | rewrite Hout; reflexivity ] ].
      * cbn. settle_status.
        all: eexists; split; [ exact Hne | split; [ reflexivity | rewrite Hout; reflexivity ] ].
      * destruct (writeResults_header w results) as [Hs Hc].
        cbv zeta. rewrite Hs, Hc, Hw. unfold StatusOK.
        settle_status.
        all: eexists; split; [ exact Hne | split; [ reflexivity | rewrite Hout; reflexivity ] ].
  - apply String.eqb_neq in Eget.
    destruct (Request.Method r =? "POST")%string eqn:Epost.
    + pose proof Epost as Hpost. apply String.eqb_eq in Hpost.
      destruct (Request.Body r) as [body | err].
      * destruct (TrimSpace body =? "")%string eqn:Eq.
        -- intros H; inversion H; subst; clear H; cbn.
           settle_status.
        -- destruct (geocode env h _) as [[[q | msg] | results] h1] eqn:Hg;
             destruct (Hsearch _ _ _ Eq Hg) as (Hne & Hh & Hout);
             intros H; inversion H; subst; clear H.
           ++ cbn. settle_status.
              all: eexists; split;
                [ exact Hne | split; [ reflexivity | rewrite Hout; reflexivity ] ].
           ++ cbn. settle_status.
              all: eexists; split;
                [ exact Hne | split; [ reflexivity | rewrite Hout; reflexivity ] ].
           ++ destruct (writePlainTextResults_header w results) as [Hs Hc].
              cbv zeta. rewrite Hs, Hc, Hw. unfold StatusOK.
              settle_status.
              all: eexists; split;
                [ exact Hne | split; [ reflexivity | rewrite Hout; reflexivity ] ].
      * intros H; inversion H; subst; clear H; cbn.
        settle_status.
    + pose proof Epost as Hpost. apply String.eqb_neq in Hpost.
      intros H; inversion H; subst; clear H; cbn.
      settle_status.
Qed.


Lemma HandleGeocode_status_witness :
  exists w' h',
    HandleGeocode Sample.atlas [] GeocodeWriter.fresh (Sample.geocodePost "nowhere") = (w', h')
    /\ GeocodeWriter.Status w' = 404
    /\ GeocodeWriter.ContentType w' = "text/plain; charset=utf-8"
    /\ geocodeText (GeocodeWriter.Written w') = unlines ["no results found for query: nowhere"].
Proof.
  pose (w' := httpError GeocodeWriter.fresh "no results found for query: nowhere" 404).
  pose (h' := [searchCall Sample.atlas "nowhere"]).
  assert (E : HandleGeocode Sample.atlas [] GeocodeWriter.fresh (Sample.geocodePost "nowhere")
              = (w', h')) by (vm_compute; reflexivity).
  exists w', h'. split; [ exact E | ]. split; [ reflexivity | ].
  pose proof (HandleGeocode_status Sample.atlas [] h' GeocodeWriter.fresh w'
                (Sample.geocodePost "nowhere") eq_refl E) as Hs.
  cbv zeta in Hs.
  destruct Hs as (_ & _ & _ & _ & Hct).
  split; [ | reflexivity ].
  apply Hct. left. reflexivity.
Defined.

(** ** The plain-text reply to a search *)








(** ** Names and addresses *)

Lemma mapGet_In (m : list (string * string)) (k v : string) :
  mapGet m k = Some v -> exists k', In (k', v) m.
Proof.
  induction m as [|[k0 v0] m IH]; simpl; [ discriminate | ].
  destruct (k0 =? k)%string.
  - intros H; inversion H; subst. exists k0. left. reflexivity.
  - intros H. destruct (IH H) as [k' Hin]. exists k'. right. exact Hin.
Qed.

Lemma mapGet_nonempty (m : list (string * string)) :
  Forall (fun kv => snd kv <> "") m ->
  forall word, word <> "" ->
    match mapGet m (ToLower word) with Some abbrev => abbrev | None => word end <> "".
Proof.
  intros Hall word Hword. destruct (mapGet m (ToLower word)) as [abbrev | ] eqn:E;
    [ | exact Hword ].
  destruct (mapGet_In _ _ _ E) as [k' Hin].
  rewrite Forall_forall in Hall. exact (Hall _ Hin).
Qed.

Lemma abbreviateState_nonempty state : state <> "" -> abbreviateState state <> "".
Proof. apply mapGet_nonempty. repeat constructor; discriminate. Qed.

Lemma Fields_nonempty (s : string) : Forall (fun w => w <> "") (Fields s).
Proof.
  induction s as [|c s IH]; cbn [Fields]; [ constructor | ].
  destruct (isSpace c); [ exact IH | ].
  destruct s as [|c' s']; [ repeat constructor; discriminate | ].
  destruct (isSpace c'); [ constructor; [ discriminate | exact IH ] | ].
  destruct (Fields (String c' s')) as [|w ws];
    [ repeat constructor; discriminate | ].
  inversion IH; subst. constructor; [ discriminate | assumption ].
Qed.

Lemma append_nonempty a c b : a ++ String c b <> "".
Proof. destruct a; discriminate. Qed.

Lemma abbreviateStreetName_nonempty street :
  street <> "" -> abbreviateStreetName street <> "".
Proof.
  intros Hne. unfold abbreviateStreetName.
  pose proof (Fields_nonempty street) as Hall.
  destruct (Fields street) as [|w [|w' ws]]; [ exact Hne | | ].
  - inversion Hall; subst. assumption.
  - cbn [List.length Nat.eqb Nat.ltb Nat.leb setFirst]. cbv zeta.
    cbn [List.length Nat.eqb Nat.ltb Nat.leb].
    destruct ws as [|w'' ws]; cbn [setLast Join]; apply append_nonempty.
Qed.

Lemma abbreviateStreetName_eqb c s :
  (abbreviateStreetName (String c s) =? "")%string = false.
Proof. apply String.eqb_neq, abbreviateStreetName_nonempty. discriminate. Qed.

(** The case analysis on which components of an address are empty. *)
Ltac settle_empty :=
  cbn -[abbreviateStreetName abbreviateState ToLower];
  rewrite ?abbreviateStreetName_eqb;
  cbn -[abbreviateStreetName abbreviateState ToLower];
  split;
  [ intros Hx; try discriminate Hx;
    try (repeat split; reflexivity);
    exfalso; revert Hx;
    first [ apply abbreviateStreetName_nonempty; discriminate
          | apply abbreviateState_nonempty; discriminate
          | apply append_nonempty ]
  | intros Hx; try reflexivity;
    repeat match goal with H : _ /\ _ |- _ => destruct H end; discriminate ].

(** A result has a name unless the candidate has none of an official name,
    a name, an alternative name, a name in its address, a house number and a
    road; and it has an address unless the candidate has none of a house
    number, a road, a city, town, village, suburb or county, a state and a
    postcode. *)
Theorem formatAddress_empty (addr : nominatimAddress.t) (nameDetails : NameDetails.t) :
  (fst (fst (formatAddress addr nameDetails)) = "" <->
   NameDetails.Official nameDetails = "" /\ NameDetails.Name nameDetails = ""
   /\ NameDetails.Alt nameDetails = "" /\ nominatimAddress.Name addr = ""
   /\ nominatimAddress.HouseNumber addr = "" /\ nominatimAddress.Road addr = "")
  /\ (snd (fst (formatAddress addr nameDetails)) = "" <->
      nominatimAddress.HouseNumber addr = "" /\ nominatimAddress.Road addr = ""
      /\ nominatimAddress.City addr = "" /\ nominatimAddress.Town addr = ""
      /\ nominatimAddress.Village addr = "" /\ nominatimAddress.Suburb addr = ""
      /\ nominatimAddress.County addr = "" /\ nominatimAddress.State addr = ""
      /\ nominatimAddress.PostCode addr = "").
Proof.
  destruct addr as [hn road suburb city town village county state pc nm country].
  destruct nameDetails as [name official alt].
  unfold formatAddress.
  cbn [fst snd NameDetails.Official NameDetails.Name NameDetails.Alt
       nominatimAddress.Name nominatimAddress.HouseNumber nominatimAddress.Road
       nominatimAddress.City nominatimAddress.Town nominatimAddress.Village
       nominatimAddress.Suburb nominatimAddress.County nominatimAddress.State
       nominatimAddress.PostCode nominatimAddress.Country].
  split.
  - destruct official, name, alt, nm, hn, road; settle_empty.
  - destruct hn, road, city, town, village, suburb, county, state, pc; settle_empty.
Qed.


(** ** Abbreviating a street name twice *)

Lemma Fields_words (s : string) : Forall isWord (Fields s).
Proof.
  unfold isWord.
  induction s as [|c s IH]; cbn [Fields]; [ constructor | ].
  destruct (isSpace c) eqn:Ec; [ exact IH | ].
  destruct s as [|c' s'].
  - repeat constructor; [ discriminate | cbn; rewrite Ec; reflexivity ].
  - destruct (isSpace c') eqn:Ec'.
    + constructor; [ | exact IH ].
      split; [ discriminate | cbn; rewrite Ec; reflexivity ].
    + destruct (Fields (String c' s')) as [|w ws].
      * repeat constructor; [ discriminate | cbn; rewrite Ec; reflexivity ].
      * inversion IH as [|? ? [Hne Hfree] Hrest]; subst.
        constructor; [ | exact Hrest ].
        split; [ discriminate | cbn [spaceFree]; rewrite Ec, Hfree; reflexivity ].
Qed.

Lemma Fields_word_app (w r : string) :
  isWord w -> Fields (w ++ String " " r) = w :: Fields r.
Proof.
  intros [Hne Hfree]. induction w as [|c w IH]; [ contradiction | ].
  cbn [spaceFree] in Hfree. apply andb_true_iff in Hfree. destruct Hfree as [Hc Hfree].
  apply negb_true_iff in Hc.
  cbn [append Fields]. rewrite Hc.
  destruct w as [|c' w'].
  - cbn [append]. change (isSpace " ") with true. cbv iota. reflexivity.
  - cbn [append]. cbn [spaceFree] in Hfree.
    assert (Hc' : isSpace c' = false).
    { apply andb_true_iff in Hfree. destruct Hfree as [Hc' _].
      apply negb_true_iff in Hc'. exact Hc'. }
    rewrite Hc'.
    change (String c' (w' ++ String " " r)) with (String c' w' ++ String " " r).
    rewrite IH; [ reflexivity | discriminate | exact Hfree ].
Qed.

Lemma Fields_word (w : string) : isWord w -> Fields w = [w].
Proof.
  intros [Hne Hfree]. induction w as [|c w IH]; [ contradiction | ].
  cbn [spaceFree] in Hfree. apply andb_true_iff in Hfree. destruct Hfree as [Hc Hfree].
  apply negb_true_iff in Hc.
  cbn [Fields]. rewrite Hc.
  destruct w as [|c' w']; [ reflexivity | ].
  assert (Hc' : isSpace c' = false).
  { cbn [spaceFree] in Hfree. apply andb_true_iff in Hfree. destruct Hfree as [Hc' _].
    apply negb_true_iff in Hc'. exact Hc'. }
  rewrite Hc', IH; [ reflexivity | discriminate | exact Hfree ].
Qed.

Lemma Fields_Join (words : list string) :
  Forall isWord words -> Fields (Join words " ") = words.
Proof.
  induction 1 as [|w ws Hw Hws IH]; [ reflexivity | ].
  cbn [Join]. destruct ws as [|w' ws']; [ apply Fields_word; exact Hw | ].
  change (w ++ " " ++ Join (w' :: ws') " ") with (w ++ String " " (Join (w' :: ws') " ")).
  rewrite Fields_word_app by exact Hw. rewrite IH. reflexivity.
Qed.

Lemma abbreviateWith_fixed (m : list (string * string)) :
  Forall (fun kv => isWord (snd kv) /\ abbreviateWith m (snd kv) = snd kv) m ->
  forall word,
    (isWord word -> isWord (abbreviateWith m word))
    /\ abbreviateWith m (abbreviateWith m word) = abbreviateWith m word.
Proof.
  intros Hall word. unfold abbreviateWith at 1 3 4.
  destruct (mapGet m (ToLower word)) as [abbrev | ] eqn:E.
  - destruct (mapGet_In _ _ _ E) as [k' Hin].
    rewrite Forall_forall in Hall. destruct (Hall _ Hin) as [Hw Hfix]. auto.
  - split; [ auto | ]. unfold abbreviateWith. rewrite E. reflexivity.
Qed.

Lemma abbreviateDirection_fixed word :
  (isWord word -> isWord (abbreviateDirection word))
  /\ abbreviateDirection (abbreviateDirection word) = abbreviateDirection word.
Proof.
  apply (abbreviateWith_fixed directionAbbrev).
  repeat constructor; try discriminate; reflexivity.
Qed.

Lemma abbreviateStreetType_fixed word :
  (isWord word -> isWord (abbreviateStreetType word))
  /\ abbreviateStreetType (abbreviateStreetType word) = abbreviateStreetType word.
Proof.
  apply (abbreviateWith_fixed streetTypeAbbrev).
  repeat constructor; try discriminate; reflexivity.
Qed.

Lemma setLast_twice f (words : list string) :
  (forall w, f (f w) = f w) -> setLast f (setLast f words) = setLast f words.
Proof.
  intros Hf. induction words as [|w ws IH]; [ reflexivity | ].
  destruct ws as [|w' ws']; cbn [setLast]; [ rewrite Hf; reflexivity | ].
  cbn [setLast] in IH.
  destruct ws' as [|w'' ws'']; cbn [setLast] in *; rewrite IH; reflexivity.
Qed.

Lemma setLast_words f (words : list string) :
  (forall w, isWord w -> isWord (f w)) -> Forall isWord words ->
  Forall isWord (setLast f words).
Proof.
  intros Hf. induction 1 as [|w ws Hw Hws IH]; cbn [setLast]; [ constructor | ].
  destruct ws as [|w' ws']; constructor; auto.
Qed.

Lemma abbreviateStreetName_words street a b rest :
  Fields street = a :: b :: rest ->
  abbreviateStreetName street
  = Join (abbreviateDirection a :: setLast abbreviateStreetType (b :: rest)) " ".
Proof.
  intros E. unfold abbreviateStreetName. rewrite E.
  cbn [List.length Nat.eqb Nat.ltb Nat.leb setFirst]. cbv zeta.
  cbn [List.length Nat.eqb Nat.ltb Nat.leb].
  destruct rest; reflexivity.
Qed.

(** Abbreviating an abbreviated street name changes nothing. *)
Theorem abbreviateStreetName_idempotent (street : string) :
  abbreviateStreetName (abbreviateStreetName street) = abbreviateStreetName street.
Proof.
  pose proof (Fields_words street) as Hall.
  destruct (Fields street) as [|a [|b rest]] eqn:E.
  - assert (H : abbreviateStreetName street = street)
      by (unfold abbreviateStreetName; rewrite E; reflexivity).
    rewrite !H. reflexivity.
  - assert (H : abbreviateStreetName street = a)
      by (unfold abbreviateStreetName; rewrite E; reflexivity).
    rewrite H. inversion Hall; subst.
    unfold abbreviateStreetName. rewrite Fields_word by assumption. reflexivity.
  - rewrite (abbreviateStreetName_words _ _ _ _ E).
    inversion Hall as [|? ? Ha Hrest]; subst.
    assert (Hlast : Forall isWord (setLast abbreviateStreetType (b :: rest)))
      by (apply setLast_words; [ apply abbreviateStreetType_fixed | exact Hrest ]).
    assert (Hfirst : isWord (abbreviateDirection a))
      by (apply abbreviateDirection_fixed; exact Ha).
    destruct (setLast abbreviateStreetType (b :: rest)) as [|b' rest'] eqn:Elast.
    { destruct rest; discriminate. }
    rewrite (abbreviateStreetName_words _ (abbreviateDirection a) b' rest')
      by (apply Fields_Join; constructor; assumption).
    rewrite (proj2 (abbreviateDirection_fixed a)).
    rewrite <- Elast, setLast_twice by apply abbreviateStreetType_fixed.
    reflexivity.
Qed.

(** * The requests sent to the direct-routing backend *)

Lemma unsupportedFloat_None f :
  unsupportedFloat f = None -> is_nan f = false /\ is_infinity f = false.
Proof.
  unfold unsupportedFloat.
  destruct (is_nan f); [ discriminate | ].
  destruct (is_infinity f); [ discriminate | auto ].
Qed.

Lemma buildValhallaRequest_asksFor now req req0 :
  validateUnits req = Ok req0 ->
  marshalError (valhallaRequest.Locations (buildValhallaRequest now req0)) = None ->
  asksFor req (buildValhallaRequest now req0)
  /\ asksFor req (buildValhallaRequest now (withMode req0 ModeAuto)).
Proof.
  intros Hunits Hmarshal.
  assert (Hreq0 : RouteRequest.Mode req0 = RouteRequest.Mode req
                  /\ RouteRequest.FromLat req0 = RouteRequest.FromLat req
                  /\ RouteRequest.FromLng req0 = RouteRequest.FromLng req
                  /\ RouteRequest.ToLat req0 = RouteRequest.ToLat req
                  /\ RouteRequest.ToLng req0 = RouteRequest.ToLng req
                  /\ getValhallaUnits (RouteRequest.Units req0)
                     = getValhallaUnits (RouteRequest.Units req)).
  { revert Hunits. unfold validateUnits.
    destruct (RouteRequest.Units req =? "")%string eqn:E.
    - apply String.eqb_eq in E. intros H; inversion H; subst. rewrite E. cbn. auto 10.
    - destruct (negb _); [ discriminate | ]. intros H; inversion H; subst. auto 10. }
  destruct Hreq0 as (Hmode & Hfl & Hfg & Htl & Htg & Hu).
  assert (Hloc : forall mode,
             valhallaRequest.Locations (buildValhallaRequest now (withMode req0 mode))
             = [ valhallaLocation.mk (RouteRequest.FromLat req) (RouteRequest.FromLng req)
                   "break";
                 valhallaLocation.mk (RouteRequest.ToLat req) (RouteRequest.ToLng req)
                   "break" ]).
  { intros mode. unfold buildValhallaRequest.
    cbn [withMode RouteRequest.Mode RouteRequest.FromLat RouteRequest.FromLng
         RouteRequest.ToLat RouteRequest.ToLng].
    rewrite Hfl, Hfg, Htl, Htg. destruct (mode =? ModeTransit)%string; reflexivity. }
  assert (Hfinite : Forall (fun f => is_nan f = false /\ is_infinity f = false)
                      [ RouteRequest.FromLat req; RouteRequest.FromLng req;
                        RouteRequest.ToLat req; RouteRequest.ToLng req ]).
  { rewrite <- (buildValhallaRequest_Locations now now req0 (RouteRequest.Mode req0)),
      Hloc in Hmarshal.
    cbn [marshalError valhallaLocation.Lat valhallaLocation.Lon] in Hmarshal.
    destruct (unsupportedFloat (RouteRequest.FromLat req)) eqn:E1; [ discriminate | ].
    destruct (unsupportedFloat (RouteRequest.FromLng req)) eqn:E2; [ discriminate | ].
    destruct (unsupportedFloat (RouteRequest.ToLat req)) eqn:E3; [ discriminate | ].
    destruct (unsupportedFloat (RouteRequest.ToLng req)) eqn:E4; [ discriminate | ].
    repeat constructor; apply unsupportedFloat_None; assumption. }
  assert (Hunit : forall mode,
             valhallaRequest.Units (buildValhallaRequest now (withMode req0 mode))
             = (if (RouteRequest.Units req =? "mi")%string then "miles" else "kilometers")).
  { intros mode. unfold buildValhallaRequest.
    cbn [withMode RouteRequest.Mode RouteRequest.Units].
    destruct (mode =? ModeTransit)%string; cbn [valhallaRequest.Units]; exact Hu. }
  assert (Hcost : forall mode,
             valhallaRequest.Costing (buildValhallaRequest now (withMode req0 mode))
             = getTransportMode mode).
  { intros mode. unfold buildValhallaRequest. cbn [withMode RouteRequest.Mode].
    destruct (mode =? ModeTransit)%string eqn:E; cbn [valhallaRequest.Costing];
      [ | reflexivity ].
    apply String.eqb_eq in E. rewrite E. reflexivity. }
  assert (Hsame : withMode req0 (RouteRequest.Mode req0) = req0) by (destruct req0; reflexivity).
  split.
  - rewrite <- Hsame. unfold asksFor.
    rewrite Hloc, Hunit, Hcost, Hmode. auto.
  - unfold asksFor. rewrite Hloc, Hunit, Hcost. auto.
Qed.

Lemma routeActivation_Return_post env h req out h' :
  routeActivation env h req = Return out h' ->
  usesItinerary (Env.navConfig env) req = false ->
  h' = h
  \/ exists req0,
       validateUnits req = Ok req0
       /\ marshalError (valhallaRequest.Locations
                          (buildValhallaRequest (Env.now env h) req0)) = None
       /\ h' = (h ++ [Post (NavConfig.ValhallaURL (Env.navConfig env))
                        (buildValhallaRequest (Env.now env h) req0)])%list.
Proof.
  unfold routeActivation. intros H Huses. rewrite Huses in H.
  destruct (validateUnits req) as [req0 | err]; [ | inversion H; auto ].
  destruct (marshalError _) eqn:Hmarshal; [ inversion H; auto | ].
  right. exists req0. split; [ reflexivity | ]. split; [ exact Hmarshal | ].
  destruct (Env.httpPost env h _ _) as [resp | err].
  - apply onValhallaReply_history in H. exact H.
  - inversion H; reflexivity.
Qed.

(** Every request a routing sends to the direct-routing backend goes to the
    configured address and asks for the way between the two places of the
    routing request, in its units, with the costing of its mode or the auto
    costing; no request is sent with a coordinate that is not a finite
    number. *)
Theorem route_posts (env : Env.t) (h h' : History) (req : RouteRequest.t)
  (out : option (result RouteResponse.t)) (url : string) (vReq : valhallaRequest.t) :
  route env h req = (out, h') ->
  In (Post url vReq) h' ->
  In (Post url vReq) h
  \/ (url = NavConfig.ValhallaURL (Env.navConfig env) /\ asksFor req vReq).
Proof.
  rewrite route_unfold.
  destruct (routeActivation env h req) as [out1 h1|req1 h1] eqn:Hact.
  - intros H; inversion H; subst; clear H.
    destruct (usesItinerary (Env.navConfig env) req) eqn:Huses.
    + destruct (routeActivation_Return_calls _ _ _ _ _ Hact)
        as [[-> _] | [[_ [query ->]] | [Hd _]]]; [ auto | | congruence ].
      intros Hin. apply in_app_or in Hin. destruct Hin as [Hin | [Hin | []]];
        [ auto | discriminate ].
    + destruct (routeActivation_Return_post _ _ _ _ _ Hact Huses)
        as [-> | (req0 & Hunits & Hmarshal & ->)]; [ auto | ].
      intros Hin. apply in_app_or in Hin. destruct Hin as [Hin | [Hin | []]]; [ auto | ].
      inversion Hin; subst. right. split; [ reflexivity | ].
      apply (buildValhallaRequest_asksFor _ _ _ Hunits Hmarshal).
  - destruct (routeActivation_Reroute_call _ _ _ _ _ Hact)
      as (req0 & resp & _ & Hunits & _ & Hmarshal & -> & -> & _ & _).
    destruct (routeActivation_rerouted env h
                (h ++ [Post (NavConfig.ValhallaURL (Env.navConfig env))
                         (buildValhallaRequest (Env.now env h) req0)])%list
                req req0 Hunits Hmarshal) as [out2 Hsecond].
    rewrite route_unfold, Hsecond.
    intros H; inversion H; subst; clear H.
    intros Hin. apply in_app_or in Hin. destruct Hin as [Hin | [Hin | []]].
    + apply in_app_or in Hin. destruct Hin as [Hin | [Hin | []]]; [ auto | ].
      inversion Hin; subst. right. split; [ reflexivity | ].
      apply (buildValhallaRequest_asksFor _ _ _ Hunits Hmarshal).
    + inversion Hin; subst. right. split; [ reflexivity | ].
      assert (Hmarshal' :
                marshalError (valhallaRequest.Locations
                                (buildValhallaRequest
                                   (Env.now env
                                      (h ++ [Post (NavConfig.ValhallaURL (Env.navConfig env))
                                               (buildValhallaRequest (Env.now env h) req0)])%list)
                                   req0)) = None).
      { rewrite <- (buildValhallaRequest_Locations (Env.now env h) _ req0
                      (RouteRequest.Mode req0)).
        rewrite (buildValhallaRequest_Locations (Env.now env h) (Env.now env h) req0
                   (RouteRequest.Mode req0)).
        exact Hmarshal. }
      apply (buildValhallaRequest_asksFor _ _ _ Hunits Hmarshal').
Qed.

Lemma route_posts_witness :
  exists vReq,
    snd (route (Sample.world Sample.directOnly (Sample.served Sample.oneLeg) Sample.noPlan) []
           (withUnits Sample.autoRequest "mi"))
    = [Post "http://valhalla.test/route" vReq]
    /\ valhallaRequest.Units vReq = "miles".
Proof.
  pose (env := Sample.world Sample.directOnly (Sample.served Sample.oneLeg) Sample.noPlan).
  pose (req := withUnits Sample.autoRequest "mi").
  pose (vReq := buildValhallaRequest (Sample.clock []) req).
  assert (E : exists out,
             route env [] req = (out, [Post "http://valhalla.test/route" vReq]))
    by (eexists; vm_compute; reflexivity).
  destruct E as [out E]. exists vReq.
  change (snd (route env [] req) = [Post "http://valhalla.test/route" vReq]
          /\ valhallaRequest.Units vReq = "miles").
  rewrite E. split; [ reflexivity | ].
  destruct (route_posts env [] _ req out _ vReq E (or_introl eq_refl))
    as [[] | (_ & _ & _ & Hu & _)].
  exact Hu.
Defined.
